(** * store/hbase/snapshot.go: the HBase snapshot and iterator adapters

    A shallow embedding of [hbaseSnapshot] and [hbaseIter] over a black-box
    model of the transactional engine (go-themis over go-hbase), with the
    properties of the adapter stated and proved against it. *)

From Stdlib Require Import ZArith String List Lia.
From stdpp Require Import gmap strings list fin_maps.

Local Open Scope Z_scope.

(** ** Go values *)

(** [[]byte], [kv.Key] and [string] are all sequences of bytes that the code
    converts into one another freely ([string(r.Row)], [[]byte(k)]). *)
Abbreviation bytes := string.

(** Lexicographic order of keys, byte by byte. *)
Definition key_le (a b : bytes) : Prop := String.leb a b = true.

(** Arithmetic of [uint64]: results are reduced modulo 2^64. *)
Definition uint64_max : Z := 2 ^ 64 - 1.
Definition wrap64 (z : Z) : Z := z mod 2 ^ 64.
Definition is_uint64 (z : Z) : Prop := 0 <= z <= uint64_max.

(** ** Errors *)

(** An error of the engine is opaque to the adapter. *)
Definition engine_error : Type := string.

(** [kv.ErrNotExist], an error of the lower layer, and [errors.Trace], which
    wraps an error with the place it passed through. *)
Inductive error : Type :=
| ErrNotExist
| Lower (e : engine_error)
| Traced (e : error).

Definition Trace (e : error) : error := Traced e.

(** [errors.Cause]: the error under the wrapping. *)
Fixpoint Cause (e : error) : error :=
  match e with
  | Traced e' => Cause e'
  | _ => e
  end.

Inductive result (A : Type) : Type :=
| Ok (a : A)
| Err (e : error).
Arguments Ok {A} a.
Arguments Err {A} e.

(** ** Requests and rows of go-hbase *)

Module hbase.

(** A cell of a result: its timestamp and value. *)
Record Kv : Type := mkKv { Ts : Z; Value : bytes }.

(** [Columns] is a Go map from "family:qualifier" to a pointer to a cell;
    a lookup of a missing column gives the nil pointer. *)
Record ResultRow : Type := mkRow { Row : bytes; Columns : gmap string Kv }.

(** A single-row request.  [TsRangeFrom] and [TsRangeTo] are two [uint64]
    fields. *)
Record Get : Type := mkGet {
  GetRow : bytes;
  GetColumns : list (bytes * bytes);
  TsRangeFrom : Z;
  TsRangeTo : Z
}.

(** [NewGet] leaves the two bounds at the zero value. *)
Definition NewGet (row : bytes) : Get :=
  {| GetRow := row; GetColumns := []; TsRangeFrom := 0; TsRangeTo := 0 |}.

Definition AddColumn (family qual : bytes) (g : Get) : Get :=
  {| GetRow := GetRow g;
     GetColumns := GetColumns g ++ [(family, qual)];
     TsRangeFrom := TsRangeFrom g;
     TsRangeTo := TsRangeTo g |}.

(** The two assignments [g.TsRangeFrom = from] and [g.TsRangeTo = to]. *)
Definition SetTsRange (from to : Z) (g : Get) : Get :=
  {| GetRow := GetRow g; GetColumns := GetColumns g;
     TsRangeFrom := from; TsRangeTo := to |}.

End hbase.

(** Modelled from the spec: the versions a request with a timestamp range
    asks for are those of the half-open interval from [TsRangeFrom] up to,
    not including, [TsRangeTo]; a request without a range asks for all. *)
Definition in_ts_range (range : option (Z * Z)) (ts : Z) : Prop :=
  match range with
  | Some (from, to) => from <= ts < to
  | None => True
  end.

Definition in_ts_rangeb (range : option (Z * Z)) (ts : Z) : bool :=
  match range with
  | Some (from, to) => (from <=? ts) && (ts <? to)
  | None => true
  end.

(** ** Calls into the engine, and panics *)

(** What the adapter does to the outside world, in order. *)
Inductive event : Type :=
| EvTxnGet (tbl : string) (g : hbase.Get)
| EvTxnBatchGet (tbl : string) (gets : list hbase.Get)
| EvGetScanner (tbl start : bytes) (stop : option bytes) (batch : Z)
| EvSetTimeRange (from to : Z)
| EvScannerNext
| EvScannerClose
| EvTxnRelease
| EvLogErrorf (msg : string).

(** A call returns, or panics at a nil pointer. *)
Inductive outcome (A : Type) : Type :=
| Done (a : A)
| Panic.
Arguments Done {A} a.
Arguments Panic {A}.

(** A Go computation: how it ends and the calls it made. *)
Definition Go (A : Type) : Type := outcome A * list event.

Definition ret {A} (a : A) : Go A := (Done a, []).
Definition panic {A} : Go A := (Panic, []).
Definition emit (e : event) : Go unit := (Done tt, [e]).

Definition bind {A B} (m : Go A) (f : A -> Go B) : Go B :=
  match m with
  | (Done a, t) => let '(r, t') := f a in (r, t ++ t')
  | (Panic, t) => (Panic, t)
  end.

#[global] Instance Go_ret : MRet Go := @ret.
#[global] Instance Go_bind : MBind Go := fun A B f m => bind m f.

(** [defer cleanup] before [body]: the cleanup runs when the body has
    returned and also when it has panicked. *)
Definition defer {A} (cleanup : Go unit) (body : Go A) : Go A :=
  let '(r, t) := body in
  match cleanup with
  | (Done _, t') => (r, t ++ t')
  | (Panic, t') => (Panic, t ++ t')
  end.

Definition trace {A} (m : Go A) : list event := snd m.
Definition returns {A} (m : Go A) (a : A) : Prop := fst m = Done a.
Definition panics {A} (m : Go A) : Prop := fst m = Panic.

(** ** The transactional engine, as the adapter sees it *)

Module themis.

(** A cursor of the engine.  [sc_rows] gives the rows the cursor yields
    under a timestamp range, in the order it yields them. *)
Record ThemisScanner : Type := mkScanner {
  sc_rows : option (Z * Z) -> list hbase.ResultRow;
  sc_range : option (Z * Z);
  sc_pos : nat;
  sc_closed : bool
}.

(** A transaction handle: what its read calls answer. *)
Record Txn : Type := mkTxn {
  txn_get : string -> hbase.Get -> option hbase.ResultRow * option engine_error;
  txn_batchGet : string -> list hbase.Get ->
                 list (option hbase.ResultRow) * option engine_error;
  txn_scan : bytes -> bytes -> option bytes -> Z ->
             option (Z * Z) -> list hbase.ResultRow
}.

Definition Get (t : Txn) (tbl : string) (g : hbase.Get)
  : Go (option hbase.ResultRow * option engine_error) :=
  emit (EvTxnGet tbl g) ;; mret (txn_get t tbl g).

Definition BatchGet (t : Txn) (tbl : string) (gets : list hbase.Get)
  : Go (list (option hbase.ResultRow) * option engine_error) :=
  emit (EvTxnBatchGet tbl gets) ;; mret (txn_batchGet t tbl gets).

(** A new cursor is open, has no timestamp range and has yielded nothing. *)
Definition GetScanner (t : Txn) (tbl start : bytes) (stop : option bytes) (batch : Z)
  : Go ThemisScanner :=
  emit (EvGetScanner tbl start stop batch) ;;
  mret {| sc_rows := txn_scan t tbl start stop batch;
          sc_range := None; sc_pos := 0; sc_closed := false |}.

Definition Release (t : Txn) : Go unit := emit EvTxnRelease.

Definition SetTimeRange (from to : Z) (sc : ThemisScanner) : Go ThemisScanner :=
  emit (EvSetTimeRange from to) ;;
  mret {| sc_rows := sc_rows sc; sc_range := Some (from, to);
          sc_pos := sc_pos sc; sc_closed := sc_closed sc |}.

(** The rows still to come. *)
Definition pending (sc : ThemisScanner) : list hbase.ResultRow :=
  if sc_closed sc then [] else drop (sc_pos sc) (sc_rows sc (sc_range sc)).

(** [Next] yields the next row, or nil when there is none. *)
Definition Next (sc : ThemisScanner) : Go (option hbase.ResultRow * ThemisScanner) :=
  emit EvScannerNext ;;
  mret (if sc_closed sc then (None, sc)
        else (sc_rows sc (sc_range sc) !! sc_pos sc,
              {| sc_rows := sc_rows sc; sc_range := sc_range sc;
                 sc_pos := S (sc_pos sc); sc_closed := sc_closed sc |})).

Definition Closed (sc : ThemisScanner) : bool := sc_closed sc.

Definition Close (sc : ThemisScanner) : Go ThemisScanner :=
  emit EvScannerClose ;;
  mret {| sc_rows := sc_rows sc; sc_range := sc_range sc;
          sc_pos := sc_pos sc; sc_closed := true |}.

End themis.

(** ** Types of package kv *)

Module kv.

Record Version : Type := mkVersion { Ver : Z }.

End kv.

(** ** Constants of the package *)

(** The fixed column every value lives in.  The names are declared in another
    file of the package; the adapter uses them only as given, so they are
    parameters here.  [hbaseFmlAndQual] is the key of that column in a row's
    [Columns]. *)
Class FixedColumn : Type := {
  hbaseColFamilyBytes : bytes;
  hbaseQualifierBytes : bytes;
  hbaseFmlAndQual : string
}.

(** [hbaseBatchSize] is used for the go-themis scanner. *)
Definition hbaseBatchSize : Z := 1000.

(** ** The snapshot and the iterator *)

(** [txn] is a pointer: [None] is nil. *)
Record hbaseSnapshot : Type := mkSnapshot {
  txn : option themis.Txn;
  storeName : string
}.

(** The embedded [*themis.ThemisScanner] and the current row [rs] are
    pointers: [None] is nil.  The iterator is the only holder of its cursor. *)
Record hbaseIter : Type := mkIter {
  ThemisScanner : option themis.ThemisScanner;
  rs : option hbase.ResultRow
}.

(** The dynamic types a caller may pass as [interface{}]. *)
Inductive param : Type :=
| ParamBytes (k : bytes)
| ParamKey (k : bytes)
| ParamString (s : string)
| ParamInt (n : Z)
| ParamNil.

(** The type assertion [param.([]byte)]: it holds for the dynamic type
    [[]byte] alone. *)
Definition assert_bytes (p : param) : option bytes :=
  match p with
  | ParamBytes k => Some k
  | _ => None
  end.

Definition newHbaseSnapshot (t : option themis.Txn) (name : string) : hbaseSnapshot :=
  {| txn := t; storeName := name |}.

Section Adapter.

Context {col : FixedColumn}.

(** [r.Columns[hbaseFmlAndQual].Value]: the lookup of a missing column
    gives a nil cell, and reading its field panics. *)
Definition fixedValue (r : hbase.ResultRow) : Go bytes :=
  match hbase.Columns r !! hbaseFmlAndQual with
  | Some c => mret (hbase.Value c)
  | None => panic
  end.

(** [len(r.Columns)] *)
Definition lenColumns (r : hbase.ResultRow) : nat := size (hbase.Columns r).

Definition internalGet (s : hbaseSnapshot) (g : hbase.Get) : Go (result bytes) :=
  match txn s with
  | None => panic
  | Some t =>
    '(r, err) ← themis.Get t (storeName s) g;
    match err with
    | Some e => mret (Err (Trace (Lower e)))
    | None =>
      match r with
      | None => mret (Err (Trace ErrNotExist))
      | Some r =>
        if Nat.eqb (lenColumns r) 0 then mret (Err (Trace ErrNotExist))
        else v ← fixedValue r; mret (Ok v)
      end
    end
  end.

(** [Get] gets the value for key [k] from the snapshot. *)
Definition Get (s : hbaseSnapshot) (k : bytes) : Go (result bytes) :=
  let g := hbase.AddColumn hbaseColFamilyBytes hbaseQualifierBytes (hbase.NewGet k) in
  r ← internalGet s g;
  match r with
  | Err err => mret (Err (Trace err))
  | Ok v => mret (Ok v)
  end.

(** The second loop of [BatchGet], over the rows the engine answered. *)
Fixpoint batchLoop (rows : list (option hbase.ResultRow)) (m : gmap string bytes)
  : Go (gmap string bytes) :=
  match rows with
  | [] => mret m
  | None :: _ => panic
  | Some r :: rows' =>
    v ← fixedValue r;
    batchLoop rows' (<[hbase.Row r := v]> m)
  end.

Definition BatchGet (s : hbaseSnapshot) (keys : list bytes)
  : Go (result (gmap string bytes)) :=
  let gets :=
    map (fun key => hbase.AddColumn hbaseColFamilyBytes hbaseQualifierBytes
                      (hbase.NewGet key)) keys in
  match txn s with
  | None => panic
  | Some t =>
    '(rows, err) ← themis.BatchGet t (storeName s) gets;
    match err with
    | Some e => mret (Err (Trace (Lower e)))
    | None => m ← batchLoop rows ∅; mret (Ok m)
    end
  end.

(** The loop of [RangeGet]: at most [n] rounds, left at the first nil or
    columnless row. *)
Fixpoint rangeLoop (n : nat) (sc : themis.ThemisScanner) (m : gmap string bytes)
  : Go (gmap string bytes) :=
  match n with
  | O => mret m
  | S n' =>
    '(r, sc') ← themis.Next sc;
    match r with
    | Some r =>
      if Nat.ltb 0 (lenColumns r) then
        v ← fixedValue r;
        rangeLoop n' sc' (<[hbase.Row r := v]> m)
      else mret m
    | None => mret m
    end
  end.

Definition RangeGet (s : hbaseSnapshot) (start stop : bytes) (limit : Z)
  : Go (result (gmap string bytes)) :=
  match txn s with
  | None => panic
  | Some t =>
    scanner ← themis.GetScanner t (storeName s) start (Some stop) limit;
    defer (themis.Close scanner ;; mret tt)
          (m ← rangeLoop (Z.to_nat limit) scanner ∅; mret (Ok m))
  end.

(** [MvccGet] returns the specific version of the given key. *)
Definition MvccGet (s : hbaseSnapshot) (k : bytes) (ver : kv.Version)
  : Go (result bytes) :=
  let g := hbase.AddColumn hbaseColFamilyBytes hbaseQualifierBytes (hbase.NewGet k) in
  let g := hbase.SetTsRange 0 (wrap64 (kv.Ver ver + 1)) g in
  r ← internalGet s g;
  match r with
  | Err err => mret (Err (Trace err))
  | Ok v => mret (Ok v)
  end.

Definition Next (it : hbaseIter) : Go (hbaseIter * option error) :=
  match ThemisScanner it with
  | None => panic
  | Some sc =>
    '(r, sc') ← themis.Next sc;
    mret ({| ThemisScanner := Some sc'; rs := r |}, None)
  end.

Definition newInnerScanner (scanner : themis.ThemisScanner) : Go (option hbaseIter) :=
  let it := {| ThemisScanner := Some scanner; rs := None |} in
  '(it, _) ← Next it;
  mret (Some it).

Definition NewIterator (s : hbaseSnapshot) (p : param) : Go (option hbaseIter) :=
  match assert_bytes p with
  | None =>
    emit (EvLogErrorf "hbase iterator parameter error, %+v") ;; mret None
  | Some k =>
    match txn s with
    | None => panic
    | Some t =>
      scanner ← themis.GetScanner t (storeName s) k None hbaseBatchSize;
      newInnerScanner scanner
    end
  end.

Definition NewMvccIterator (s : hbaseSnapshot) (k : bytes) (ver : kv.Version)
  : Go (option hbaseIter) :=
  match txn s with
  | None => panic
  | Some t =>
    scanner ← themis.GetScanner t (storeName s) k None hbaseBatchSize;
    scanner ← themis.SetTimeRange 0 (wrap64 (kv.Ver ver + 1)) scanner;
    newInnerScanner scanner
  end.

Definition Release (s : hbaseSnapshot) : Go hbaseSnapshot :=
  match txn s with
  | Some t =>
    themis.Release t ;;
    mret {| txn := None; storeName := storeName s |}
  | None => mret s
  end.

Definition MvccRelease (s : hbaseSnapshot) : Go hbaseSnapshot := Release s.

Definition Valid (it : hbaseIter) : Go bool :=
  match rs it with
  | None => mret false
  | Some r =>
    if Nat.eqb (lenColumns r) 0 then mret false
    else
      match ThemisScanner it with
      | None => panic
      | Some sc => if themis.Closed sc then mret false else mret true
      end
  end.

Definition Key (it : hbaseIter) : Go string :=
  match rs it with
  | None => panic
  | Some r => mret (hbase.Row r)
  end.

Definition Value (it : hbaseIter) : Go bytes :=
  match rs it with
  | None => panic
  | Some r => fixedValue r
  end.

Definition Close (it : hbaseIter) : Go hbaseIter :=
  it ← match ThemisScanner it with
       | Some sc =>
         themis.Close sc ;;
         mret {| ThemisScanner := None; rs := rs it |}
       | None => mret it
       end;
  mret {| ThemisScanner := ThemisScanner it; rs := None |}.

End Adapter.

(** ** Reading a trace *)

(** How many times the trace releases the transaction handle. *)
Definition releases (tr : list event) : nat :=
  length (List.filter
            (fun e => match e with EvTxnRelease => true | _ => false end) tr).

(** The computation ends in a panic. *)
Definition fails_fast {A} (m : Go A) : Prop :=
  match fst m with Panic => True | Done _ => False end.

(** How many times the trace closes a cursor. *)
Definition closes (tr : list event) : nat :=
  length (List.filter
            (fun e => match e with EvScannerClose => true | _ => false end) tr).

(** The call pulls a row from a cursor. *)
Definition pulls_row (e : event) : bool :=
  match e with EvScannerNext => true | _ => false end.

(** The computation returns an error whose cause is [cause]. *)
Definition fails_with {A} (m : Go (result A)) (cause : error) : Prop :=
  ∃ err, returns m (Err err) ∧ Cause err = cause.

(** ** What the engine owes the adapter *)

Section Contract.

Context {col : FixedColumn}.

(** A row with columns carries the fixed column: every value lives in it. *)
Definition row_ok (r : hbase.ResultRow) : Prop :=
  lenColumns r ≠ 0%nat → is_Some (hbase.Columns r !! hbaseFmlAndQual).

(** The row has no value in the fixed column. *)
Definition columnless (r : hbase.ResultRow) : Prop :=
  hbase.Columns r !! hbaseFmlAndQual = None.

(** The value of the fixed column, empty when the column is missing. *)
Definition valueOf (r : hbase.ResultRow) : bytes :=
  match hbase.Columns r !! hbaseFmlAndQual with
  | Some c => hbase.Value c
  | None => String.EmptyString
  end.

(** The rows in front of the first row without columns. *)
Fixpoint livePrefix (rows : list hbase.ResultRow) : list hbase.ResultRow :=
  match rows with
  | [] => []
  | r :: rows' => if Nat.eqb (lenColumns r) 0 then [] else r :: livePrefix rows'
  end.

(** The mapping that holds the given rows, later rows over earlier ones. *)
Definition insertRows (rows : list hbase.ResultRow) (m : gmap string bytes)
  : gmap string bytes :=
  foldl (fun m r => <[hbase.Row r := valueOf r]> m) m rows.

(** The key of a row lies between [start] and [stop], both included. *)
Definition in_key_range (start stop : bytes) (r : hbase.ResultRow) : Prop :=
  key_le start (hbase.Row r) ∧ key_le (hbase.Row r) stop.

(** What a constructor of iterators owes its caller, over a cursor that
    yields [rows]: the iterator it returns has pulled one row, which is its
    current row; it is valid on a first row that has columns, with the key
    and the value of that row, and not valid when there is no row. *)
Definition pre_advanced (mk : Go (option hbaseIter)) (rows : list hbase.ResultRow)
  : Prop :=
  ∃ it sc,
    returns mk (Some it) ∧
    ThemisScanner it = Some sc ∧ themis.sc_pos sc = 1%nat ∧
    length (List.filter pulls_row (trace mk)) = 1%nat ∧
    rs it = head rows ∧
    match head rows with
    | Some r =>
      lenColumns r ≠ 0%nat →
      Valid it = (Done true, []) ∧
      Key it = (Done (hbase.Row r), []) ∧
      Value it = (Done (valueOf r), [])
    | None => Valid it = (Done false, [])
    end.

(** [n] calls of [Next] one after the other, as a loop over the iterator
    makes them: the loop is left with the error of the first call that
    returns one. *)
Fixpoint advance (n : nat) (it : hbaseIter) : Go (result hbaseIter) :=
  match n with
  | O => mret (Ok it)
  | S n' =>
    '(it', err) ← Next it;
    match err with
    | Some e => mret (Err e)
    | None => advance n' it'
    end
  end.

(** What a loop over a new iterator sees, over a cursor that yields [rows]:
    [n] calls of [Next] each return a nil error, without a panic, and leave
    the iterator on the row of index [n], where the next call of [Next]
    returns a nil error again; it is valid there exactly when that
    row exists and has columns; [Close] then closes the cursor. *)
Definition walks (mk : Go (option hbaseIter)) (rows : list hbase.ResultRow) (n : nat)
  : Prop :=
  ∃ it0 itn,
    returns mk (Some it0) ∧
    advance n it0 = (Done (Ok itn), replicate n EvScannerNext) ∧
    (∃ itn', Next itn = (Done (itn', None), [EvScannerNext])) ∧
    rs itn = rows !! n ∧
    (Valid itn = (Done true, []) ↔ ∃ r, rows !! n = Some r ∧ lenColumns r ≠ 0%nat) ∧
    (Valid itn = (Done false, []) ↔ ¬ ∃ r, rows !! n = Some r ∧ lenColumns r ≠ 0%nat) ∧
    Close itn = (Done {| ThemisScanner := None; rs := None |}, [EvScannerClose]).

End Contract.

(** ** A reference engine *)

Module refengine.

(** A committed write to the fixed column of a row. *)
Record Cell : Type := mkCell { c_row : bytes; c_ts : Z; c_val : bytes }.

(** The value written to [k] at the greatest version that is at most [V]. *)
Definition visible (cells : list Cell) (k : bytes) (V : Z) (v : bytes) : Prop :=
  ∃ c, c ∈ cells ∧ c_row c = k ∧ c_ts c <= V ∧ c_val c = v ∧
       ∀ c', c' ∈ cells → c_row c' = k → c_ts c' <= V → c_ts c' <= c_ts c.

(** Modelled from the spec: the engine answers a fetch of a row with the
    write of the greatest version among those the request asks for, and
    with no row when there is none. *)
Fixpoint latest (cells : list Cell) (k : bytes) (range : option (Z * Z))
  : option Cell :=
  match cells with
  | [] => None
  | c :: cells' =>
    let best := latest cells' k range in
    if String.eqb (c_row c) k && in_ts_rangeb range (c_ts c) then
      match best with
      | Some b => if c_ts c <? c_ts b then Some b else Some c
      | None => Some c
      end
    else best
  end.

(** Modelled from the spec: the version ceiling of a request is optional.
    The two bounds of a request are plain numbers, so bounds that are both
    zero, as [NewGet] leaves them, are no range at all. *)
Definition rangeOf (from to : Z) : option (Z * Z) :=
  if (from =? 0) && (to =? 0) then None else Some (from, to).

Section Engine.

Context {col : FixedColumn}.

Definition rowOf (c : Cell) : hbase.ResultRow :=
  {| hbase.Row := c_row c;
     hbase.Columns :=
       {[ hbaseFmlAndQual := {| hbase.Ts := c_ts c; hbase.Value := c_val c |} ]} |}.

(** Modelled from the spec: [handle.get], a single-row fetch that never
    fails. *)
Definition get (cells : list Cell) (tbl : string) (g : hbase.Get)
  : option hbase.ResultRow * option engine_error :=
  (rowOf <$> latest cells (hbase.GetRow g)
                    (rangeOf (hbase.TsRangeFrom g) (hbase.TsRangeTo g)), None).

(** Modelled from the spec: [handle.batchGet], one answer for each
    request, nil for a row that does not exist. *)
Definition batchGet (cells : list Cell) (tbl : string) (gets : list hbase.Get)
  : list (option hbase.ResultRow) * option engine_error :=
  (map (fun g => fst (get cells tbl g)) gets, None).

(** Modelled from the spec: [handle.scan], the rows from [start] up to
    but not including [stop], each once, in the order of the table. *)
Definition scan (cells : list Cell) (tbl start : bytes) (stop : option bytes)
           (batch : Z) (range : option (Z * Z)) : list hbase.ResultRow :=
  omap (fun k => rowOf <$>
                   latest cells k
                     match range with
                     | Some (from, to) => rangeOf from to
                     | None => None
                     end)
       (List.filter
          (fun k => String.leb start k &&
                    match stop with Some e => String.ltb k e | None => true end)
          (remove_dups (c_row <$> cells))).

Definition refTxn (cells : list Cell) : themis.Txn :=
  {| themis.txn_get := get cells;
     themis.txn_batchGet := batchGet cells;
     themis.txn_scan := scan cells |}.

End Engine.

End refengine.

(** ** Sample data *)

Module sample.

Import refengine.

(** One choice of names for the fixed column. *)
Definition fq : FixedColumn :=
  {| hbaseColFamilyBytes := "f"; hbaseQualifierBytes := "q";
     hbaseFmlAndQual := "f:q" |}.

(** Key "a" written with "1" at version 1 and with "2" at version 2, and
    key "c" written with "3" at version 1. *)
Definition cells : list Cell :=
  [ {| c_row := "a"; c_ts := 1; c_val := "1" |};
    {| c_row := "a"; c_ts := 2; c_val := "2" |};
    {| c_row := "c"; c_ts := 1; c_val := "3" |} ].

Definition snap : hbaseSnapshot :=
  newHbaseSnapshot (Some (@refTxn fq cells)) "t".

(** Key "a" written with "1" at version 1 and with "2" at version 2. *)
Definition versions : list Cell :=
  [ {| c_row := "a"; c_ts := 1; c_val := "1" |};
    {| c_row := "a"; c_ts := 2; c_val := "2" |} ].

(** A snapshot that has been released. *)
Definition released : hbaseSnapshot := newHbaseSnapshot None "t".

(** An engine that fails every call. *)
Definition failing : themis.Txn :=
  {| themis.txn_get := fun _ _ => (None, Some "connection reset"%string);
     themis.txn_batchGet := fun _ _ => ([], Some "connection reset"%string);
     themis.txn_scan := fun _ _ _ _ _ => [] |}.

(** An engine whose batch answer holds a row without columns. *)
Definition sparse : themis.Txn :=
  {| themis.txn_get := @get fq cells;
     themis.txn_batchGet := fun _ _ =>
       ([Some (@rowOf fq {| c_row := "a"; c_ts := 2; c_val := "2" |});
         Some {| hbase.Row := "b"; hbase.Columns := ∅ |}], None);
     themis.txn_scan := @scan fq cells |}.

(** An engine whose table has a row "x" with a value in another column
    only. *)
Definition foreignRow : hbase.ResultRow :=
  {| hbase.Row := "x";
     hbase.Columns := {[ "g:h" := {| hbase.Ts := 1; hbase.Value := "9" |} ]} |}.

Definition foreign : themis.Txn :=
  {| themis.txn_get := fun _ _ => (Some foreignRow, None);
     themis.txn_batchGet := fun _ gets => (map (fun _ => Some foreignRow) gets, None);
     themis.txn_scan := fun _ _ _ _ _ => [foreignRow] |}.

(** An iterator on the first row of the table, as [NewIterator] leaves it. *)
Definition iter : hbaseIter :=
  {| ThemisScanner :=
       Some {| themis.sc_rows := @scan fq cells "t" "a" None hbaseBatchSize;
               themis.sc_range := None; themis.sc_pos := 1;
               themis.sc_closed := false |};
     rs := Some (@rowOf fq {| c_row := "a"; c_ts := 2; c_val := "2" |}) |}.

End sample.

(** * Properties *)

(** Unfolds the plumbing of [Go] computations. *)
Ltac go_unfold :=
  unfold mbind, mret, Go_bind, Go_ret, bind, ret, emit, panic, defer,
    returns, panics, trace in *.

Section Proofs.

Context {col : FixedColumn}.

(** *** The iterator after [Close] *)

Lemma Close_clears (it : hbaseIter) :
  ∃ tr, Close it = (Done {| ThemisScanner := None; rs := None |}, tr) ∧
        (tr = [EvScannerClose] ∨ tr = []).
Proof.
  destruct it as [[sc|] r]; unfold Close, themis.Close; go_unfold; simpl; eauto.
Qed.

(** C10: after [Close] the cursor reference and the current row are both
    nil, and [Valid] answers false without a panic and without a call to
    the cleared cursor. *)
Theorem Valid_after_Close (it : hbaseIter) :
  ∃ it' tr,
    Close it = (Done it', tr) ∧
    ThemisScanner it' = None ∧ rs it' = None ∧
    Valid it' = (Done false, []).
Proof.
  destruct (Close_clears it) as (tr & -> & _).
  eexists _, _. repeat split.
Qed.

(** *** Release *)

Lemma Release_released (s : hbaseSnapshot) :
  txn s = None → Release s = (Done s, []).
Proof. intros H. unfold Release. by rewrite H. Qed.

(** C8: the first [Release] releases the handle once and clears the
    reference; a later [Release] or [MvccRelease] returns without a panic,
    calls nothing and leaves the snapshot as it is. *)
Theorem Release_idempotent (s : hbaseSnapshot) :
  ∃ s' tr,
    Release s = (Done s', tr) ∧
    txn s' = None ∧ storeName s' = storeName s ∧
    releases tr = match txn s with Some _ => 1%nat | None => 0%nat end ∧
    Release s' = (Done s', []) ∧
    MvccRelease s' = (Done s', []) ∧
    (s ← Release s; Release s) = (Done s', tr).
Proof.
  destruct s as [[t|] name]; unfold MvccRelease, Release, themis.Release;
    go_unfold; simpl; eexists _, _; repeat split.
Qed.

(** *** The parameter of [NewIterator] *)

(** C5, as the code has it: a parameter that is not a [[]byte] makes
    [NewIterator] log an error and return the nil iterator; it opens no
    cursor and does not panic. *)
Theorem NewIterator_bad_param (s : hbaseSnapshot) (p : param) :
  assert_bytes p = None →
  NewIterator s p =
    (Done None, [EvLogErrorf "hbase iterator parameter error, %+v"]).
Proof. intros H. unfold NewIterator. by rewrite H. Qed.

(** *** The cursor of [RangeGet] *)

Lemma rangeLoop_trace (n : nat) (sc : themis.ThemisScanner) (m : gmap string bytes) :
  ∃ j, (j ≤ n)%nat ∧ snd (rangeLoop n sc m) = replicate j EvScannerNext.
Proof.
  revert sc m. induction n as [|n IH]; intros sc m; simpl.
  - exists 0%nat. split; [lia | done].
  - unfold themis.Next. go_unfold. simpl.
    destruct (themis.sc_closed sc); simpl.
    { exists 1%nat. split; [lia | done]. }
    destruct (themis.sc_rows sc (themis.sc_range sc) !! themis.sc_pos sc) as [r|];
      simpl; [| exists 1%nat; split; [lia | done]].
    destruct (Nat.ltb 0 (lenColumns r)); simpl;
      [| exists 1%nat; split; [lia | done]].
    unfold fixedValue. go_unfold.
    destruct (hbase.Columns r !! hbaseFmlAndQual) as [c|]; simpl;
      [| exists 1%nat; split; [lia | done]].
    match goal with |- context [rangeLoop n ?sc' ?m'] =>
      destruct (IH sc' m') as (j & Hj & Htr);
      destruct (rangeLoop n sc' m') as [o tr] end.
    simpl in Htr. subst tr. exists (S j). split; [lia | done].
Qed.

(** C7: when the snapshot holds a transaction, [RangeGet] opens one cursor,
    pulls at most [limit] rows from it, and closes it as its last call,
    whether the loop ran to its end, left early or panicked.  A released
    snapshot panics before any cursor is opened. *)
Theorem RangeGet_closes_cursor (s : hbaseSnapshot) (start stop : bytes) (limit : Z) :
  match txn s with
  | None => RangeGet s start stop limit = (Panic, [])
  | Some t =>
    ∃ j, (j ≤ Z.to_nat limit)%nat ∧
      trace (RangeGet s start stop limit) =
        EvGetScanner (storeName s) start (Some stop) limit
          :: replicate j EvScannerNext ++ [EvScannerClose]
  end.
Proof.
  unfold RangeGet. destruct (txn s) as [t|]; [| done].
  unfold themis.GetScanner, themis.Close. go_unfold. simpl.
  match goal with |- context [rangeLoop ?n ?sc ?m] =>
    destruct (rangeLoop_trace n sc m) as (j & Hj & Htr);
    destruct (rangeLoop n sc m) as [[m'|] tr] end;
    simpl in *; subst tr; exists j; (split; [done|]);
    simpl; by rewrite ?app_nil_r.
Qed.

(** *** The version ceiling *)

Lemma wrap64_succ (v : Z) :
  is_uint64 v →
  (v < uint64_max → wrap64 (v + 1) = v + 1) ∧
  (v = uint64_max → wrap64 (v + 1) = 0).
Proof.
  unfold is_uint64, uint64_max, wrap64. intros Hv. split; intros H.
  - apply Z.mod_small. lia.
  - subst v. reflexivity.
Qed.

Lemma internalGet_trace (s : hbaseSnapshot) (t : themis.Txn) (g : hbase.Get) :
  txn s = Some t →
  (fst (internalGet s g) = Panic ∨ ∃ r, fst (internalGet s g) = Done r) ∧
  snd (internalGet s g) = [EvTxnGet (storeName s) g].
Proof.
  intros Ht. unfold internalGet, themis.Get, fixedValue. rewrite Ht. go_unfold. simpl.
  destruct (themis.txn_get t (storeName s) g) as [[r|] [e|]]; simpl; eauto.
  destruct (Nat.eqb (lenColumns r) 0); simpl; eauto.
  destruct (hbase.Columns r !! hbaseFmlAndQual); simpl; eauto.
Qed.


(** *** Point lookups *)

Lemma fixedValue_ok (r : hbase.ResultRow) :
  row_ok r → lenColumns r ≠ 0%nat → fixedValue r = (Done (valueOf r), []).
Proof.
  intros Hok Hlen. destruct (Hok Hlen) as [c Hc].
  unfold fixedValue, valueOf. by rewrite Hc.
Qed.

Lemma columnless_iff (r : hbase.ResultRow) :
  row_ok r → (lenColumns r = 0%nat ↔ columnless r).
Proof.
  intros Hok. unfold columnless, lenColumns. split.
  - intros H%map_size_empty_inv. by rewrite H, lookup_empty.
  - intros Hnone. destruct (decide (size (hbase.Columns r) = 0%nat)) as [|Hne]; [done|].
    destruct (Hok Hne) as [c Hc]. congruence.
Qed.

(** What [internalGet] answers, case by case. *)
Lemma internalGet_cases (s : hbaseSnapshot) (t : themis.Txn) (g : hbase.Get) :
  txn s = Some t →
  (∀ r, fst (themis.txn_get t (storeName s) g) = Some r → row_ok r) →
  fst (internalGet s g) =
    match themis.txn_get t (storeName s) g with
    | (_, Some e) => Done (Err (Trace (Lower e)))
    | (None, None) => Done (Err (Trace ErrNotExist))
    | (Some r, None) =>
      if Nat.eqb (lenColumns r) 0 then Done (Err (Trace ErrNotExist))
      else Done (Ok (valueOf r))
    end.
Proof.
  intros Ht Hok. unfold internalGet, themis.Get. rewrite Ht. go_unfold. simpl.
  destruct (themis.txn_get t (storeName s) g) as [[r|] [e|]]; simpl; try done.
  destruct (Nat.eqb (lenColumns r) 0) eqn:Hlen; simpl; [done|].
  apply Nat.eqb_neq in Hlen.
  rewrite (fixedValue_ok r (Hok r eq_refl) Hlen). done.
Qed.

Lemma Get_cases (s : hbaseSnapshot) (t : themis.Txn) (k : bytes) :
  txn s = Some t →
  let g := hbase.AddColumn hbaseColFamilyBytes hbaseQualifierBytes (hbase.NewGet k) in
  (∀ r, fst (themis.txn_get t (storeName s) g) = Some r → row_ok r) →
  fst (Get s k) =
    match themis.txn_get t (storeName s) g with
    | (_, Some e) => Done (Err (Trace (Trace (Lower e))))
    | (None, None) => Done (Err (Trace (Trace ErrNotExist)))
    | (Some r, None) =>
      if Nat.eqb (lenColumns r) 0 then Done (Err (Trace (Trace ErrNotExist)))
      else Done (Ok (valueOf r))
    end.
Proof.
  intros Ht g Hok.
  pose proof (internalGet_cases s t g Ht Hok) as Hget.
  unfold Get. fold g.
  destruct (internalGet s g) as [o tr]. simpl in Hget. subst o.
  destruct (themis.txn_get t (storeName s) g) as [[r|] [e|]]; try done.
  destruct (Nat.eqb (lenColumns r) 0); done.
Qed.

(** C2: when the engine answers without an error, [Get] fails with
    [ErrNotExist] exactly when the row is absent or has no value in the
    fixed column, and otherwise returns the bytes of that column; an error
    of the engine comes back wrapped, with the engine's error as its cause. *)
Theorem Get_not_found_iff (s : hbaseSnapshot) (t : themis.Txn) (k : bytes) :
  txn s = Some t →
  let g := hbase.AddColumn hbaseColFamilyBytes hbaseQualifierBytes (hbase.NewGet k) in
  let fetched := themis.txn_get t (storeName s) g in
  (∀ r, fst fetched = Some r → row_ok r) →
  (fails_with (Get s k) ErrNotExist ↔
     snd fetched = None ∧
     (fst fetched = None ∨ ∃ r, fst fetched = Some r ∧ columnless r)) ∧
  (∀ r c, snd fetched = None → fst fetched = Some r →
          hbase.Columns r !! hbaseFmlAndQual = Some c →
          returns (Get s k) (Ok (hbase.Value c))) ∧
  (∀ e, snd fetched = Some e →
        returns (Get s k) (Err (Trace (Trace (Lower e)))) ∧
        fails_with (Get s k) (Lower e)).
Proof.
  intros Ht g fetched Hok.
  pose proof (Get_cases s t k Ht Hok) as Hget. fold g fetched in Hget.
  unfold fails_with, returns. rewrite Hget. clear Hget.
  destruct fetched as [[r|] [e|]] eqn:Hf; simpl in *.
  - split; [split | split].
    + intros (err & [= <-] & Hc). done.
    + intros [[=] _].
    + intros ? ? [=].
    + intros e' [= <-]. split; [done|]. eexists. split; done.
  - pose proof (columnless_iff r (Hok r eq_refl)) as Hcl.
    destruct (Nat.eqb (lenColumns r) 0) eqn:Hlen.
    + apply Nat.eqb_eq in Hlen. split; [split | split].
      * intros _. split; [done|]. right. exists r. split; [done|]. by apply Hcl.
      * intros _. eexists. split; done.
      * intros r' c _ [= <-] Hc. apply Hcl in Hlen. unfold columnless in Hlen. congruence.
      * intros ? [=].
    + apply Nat.eqb_neq in Hlen. split; [split | split].
      * intros (err & [=] & _).
      * intros [_ [[=] | (r' & [= <-] & Hc)]]. by apply Hcl in Hc.
      * intros r' c _ [= <-] Hc. unfold valueOf. by rewrite Hc.
      * intros ? [=].
  - split; [split | split].
    + intros (err & [= <-] & Hc). done.
    + intros [[=] _].
    + intros ? ? _ [=].
    + intros e' [= <-]. split; [done|]. eexists. split; done.
  - split; [split | split].
    + intros _. split; [done|]. by left.
    + intros _. eexists. split; done.
    + intros ? ? _ [=].
    + intros ? [=].
Qed.

(** *** Iterators *)

Lemma newInnerScanner_open (sc : themis.ThemisScanner) :
  themis.sc_closed sc = false →
  newInnerScanner sc =
    (Done (Some {| ThemisScanner :=
                     Some {| themis.sc_rows := themis.sc_rows sc;
                             themis.sc_range := themis.sc_range sc;
                             themis.sc_pos := S (themis.sc_pos sc);
                             themis.sc_closed := false |};
                   rs := themis.sc_rows sc (themis.sc_range sc) !! themis.sc_pos sc |}),
     [EvScannerNext]).
Proof.
  intros Hopen. unfold newInnerScanner, Next, themis.Next. go_unfold. simpl.
  by rewrite Hopen.
Qed.

(** An iterator over an open cursor, on a row that has columns. *)
Lemma iter_on_row (sc : themis.ThemisScanner) (r : hbase.ResultRow) :
  themis.sc_closed sc = false → row_ok r → lenColumns r ≠ 0%nat →
  let it := {| ThemisScanner := Some sc; rs := Some r |} in
  Valid it = (Done true, []) ∧
  Key it = (Done (hbase.Row r), []) ∧
  Value it = (Done (valueOf r), []).
Proof.
  intros Hopen Hok Hlen it. unfold Valid, Key, Value, themis.Closed. simpl.
  apply Nat.eqb_neq in Hlen as Hlen'. rewrite Hlen', Hopen.
  by rewrite (fixedValue_ok r Hok Hlen).
Qed.

(** C6: the iterator that [NewIterator] or [NewMvccIterator] returns has
    pulled one row from its cursor already.  When the cursor yields a first
    row with columns the iterator is valid and [Key] and [Value] are those
    of that row; when the cursor yields nothing it is not valid. *)
Theorem iterator_pre_advanced
    (s : hbaseSnapshot) (t : themis.Txn) (k : bytes) (ver : kv.Version) :
  txn s = Some t →
  let cursor := themis.txn_scan t (storeName s) k None hbaseBatchSize in
  (∀ range r, head (cursor range) = Some r → row_ok r) →
  pre_advanced (NewIterator s (ParamBytes k)) (cursor None) ∧
  pre_advanced (NewMvccIterator s k ver)
               (cursor (Some (0, wrap64 (kv.Ver ver + 1)))).
Proof.
  intros Ht cursor Hok. unfold pre_advanced, NewIterator, NewMvccIterator.
  simpl. rewrite Ht. unfold themis.GetScanner, themis.SetTimeRange.
  split.
  - go_unfold. simpl. eexists _, _. repeat (split; [reflexivity|]).
    fold cursor. rewrite <- head_lookup. split; [done|].
    destruct (head (cursor None)) as [r|] eqn:Hhd; [| done].
    intros Hlen. apply iter_on_row; eauto.
  - go_unfold. simpl. eexists _, _. repeat (split; [reflexivity|]).
    fold cursor. rewrite <- head_lookup. split; [done|].
    destruct (head (cursor _)) as [r|] eqn:Hhd; [| done].
    intros Hlen. apply iter_on_row; eauto.
Qed.

(** *** The mapping built from rows *)

Lemma insertRows_snoc (l : list hbase.ResultRow) (r : hbase.ResultRow)
      (m : gmap string bytes) :
  insertRows (l ++ [r]) m = <[hbase.Row r := valueOf r]> (insertRows l m).
Proof. unfold insertRows. by rewrite foldl_app. Qed.

Lemma insertRows_size (l : list hbase.ResultRow) (m : gmap string bytes) :
  (size (insertRows l m) ≤ size m + length l)%nat.
Proof.
  revert m. induction l as [|r l IH]; intros m; simpl; [lia|].
  etrans; [apply IH|].
  pose proof (map_size_insert (hbase.Row r) (valueOf r) m) as Hs.
  destruct (m !! hbase.Row r); simpl in Hs; lia.
Qed.

Lemma insertRows_lookup (l : list hbase.ResultRow) (m : gmap string bytes)
      (k : string) (v : bytes) :
  insertRows l m !! k = Some v →
  m !! k = Some v ∨ ∃ r, r ∈ l ∧ hbase.Row r = k ∧ valueOf r = v.
Proof.
  revert m. induction l as [|r l IH]; intros m; simpl; [by left|].
  intros H. destruct (IH _ H) as [Hm | (r' & Hin & Hk & Hv)].
  - destruct (decide (hbase.Row r = k)) as [<-|Hne].
    + rewrite lookup_insert_eq in Hm. injection Hm as <-.
      right. exists r. split; [by left | done].
    + rewrite lookup_insert_ne in Hm by done. by left.
  - right. exists r'. split; [by right | done].
Qed.

Lemma insertRows_lookup_fresh (l : list hbase.ResultRow) (m : gmap string bytes)
      (k : string) :
  k ∉ hbase.Row <$> l → insertRows l m !! k = m !! k.
Proof.
  revert m. induction l as [|r l IH]; intros m Hk; simpl; [done|].
  rewrite fmap_cons in Hk. apply not_elem_of_cons in Hk as [Hne Hk].
  rewrite IH by done. by rewrite lookup_insert_ne.
Qed.

(** With distinct keys every row is found in the mapping, with its value. *)
Lemma insertRows_complete (l : list hbase.ResultRow) (m : gmap string bytes)
      (r : hbase.ResultRow) :
  NoDup (hbase.Row <$> l) → r ∈ l →
  insertRows l m !! hbase.Row r = Some (valueOf r).
Proof.
  revert m. induction l as [|r' l IH]; intros m Hnd Hin; [by apply elem_of_nil in Hin|].
  rewrite fmap_cons in Hnd. apply NoDup_cons in Hnd as [Hfresh Hnd].
  apply elem_of_cons in Hin as [-> | Hin]; simpl.
  - rewrite insertRows_lookup_fresh by done. apply lookup_insert_eq.
  - by apply IH.
Qed.

Lemma insertRows_size_NoDup (l : list hbase.ResultRow) (m : gmap string bytes) :
  NoDup (hbase.Row <$> l) →
  (∀ r, r ∈ l → m !! hbase.Row r = None) →
  size (insertRows l m) = (size m + length l)%nat.
Proof.
  revert m. induction l as [|r l IH]; intros m Hnd Hm; simpl; [lia|].
  rewrite fmap_cons in Hnd. apply NoDup_cons in Hnd as [Hfresh Hnd].
  rewrite IH; [| done |].
  - rewrite map_size_insert_None; [lia|]. apply Hm. by left.
  - intros r' Hin. rewrite lookup_insert_ne.
    + apply Hm. by right.
    + intros Heq. apply Hfresh. rewrite Heq. by apply list_elem_of_fmap_2.
Qed.

Lemma livePrefix_prefix (rows : list hbase.ResultRow) :
  ∃ rest, rows = livePrefix rows ++ rest.
Proof.
  induction rows as [|r rows [rest IH]]; simpl; [by exists []|].
  destruct (Nat.eqb (lenColumns r) 0); [by eexists|].
  exists rest. simpl. by rewrite <- IH.
Qed.

Lemma livePrefix_live (rows : list hbase.ResultRow) :
  Forall (fun r => lenColumns r ≠ 0%nat) (livePrefix rows).
Proof.
  induction rows as [|r rows IH]; simpl; [constructor|].
  destruct (Nat.eqb (lenColumns r) 0) eqn:Hlen; constructor; [|done].
  by apply Nat.eqb_neq.
Qed.

(** The row that follows the live rows, if there is one, has no columns. *)
Lemma livePrefix_stop (rows : list hbase.ResultRow) (r : hbase.ResultRow) :
  rows !! length (livePrefix rows) = Some r → lenColumns r = 0%nat.
Proof.
  induction rows as [|r' rows IH]; simpl; [done|].
  destruct (Nat.eqb (lenColumns r') 0) eqn:Hlen; simpl.
  - intros [= <-]. by apply Nat.eqb_eq.
  - done.
Qed.

(** *** The loop of [RangeGet] *)

Lemma rangeLoop_run (n : nat) (sc : themis.ThemisScanner) (m : gmap string bytes) :
  Forall row_ok (themis.pending sc) →
  fst (rangeLoop n sc m) =
    Done (insertRows (take n (livePrefix (themis.pending sc))) m).
Proof.
  revert sc m. induction n as [|n IH]; intros sc m Hok; simpl; [done|].
  unfold themis.Next. go_unfold. simpl.
  unfold themis.pending in *.
  destruct (themis.sc_closed sc) eqn:Hcl; simpl; [done|].
  destruct (themis.sc_rows sc (themis.sc_range sc) !! themis.sc_pos sc)
    as [r|] eqn:Hrow; simpl.
  - rewrite (drop_S _ _ _ Hrow) in *. simpl.
    apply Forall_cons in Hok as [Hr Hok].
    destruct (Nat.eqb (lenColumns r) 0) eqn:Hlen.
    + apply Nat.eqb_eq in Hlen. rewrite Hlen. done.
    + apply Nat.eqb_neq in Hlen as Hlen'.
      assert (Nat.ltb 0 (lenColumns r) = true) as -> by (apply Nat.ltb_lt; lia).
      rewrite (fixedValue_ok r Hr Hlen'). simpl.
      match goal with |- context [rangeLoop n ?sc' ?m'] =>
        specialize (IH sc' m'); destruct (rangeLoop n sc' m') as [o tr] end.
      simpl in *. by rewrite IH.
  - apply lookup_ge_None in Hrow. rewrite drop_ge by done. simpl.
    by destruct n.
Qed.

(** C4: over a cursor whose rows have distinct keys between [start] and
    [stop], [RangeGet] returns a mapping and no error.  The mapping has at
    most [limit] entries, all of them rows of the cursor; it has fewer than
    [limit] only when it holds every row in front of the first row without
    columns or the end of the cursor; it is empty when no row qualifies. *)
Theorem RangeGet_bounded
    (s : hbaseSnapshot) (t : themis.Txn) (start stop : bytes) (limit : Z) :
  txn s = Some t →
  let rows := themis.txn_scan t (storeName s) start (Some stop) limit None in
  Forall row_ok rows →
  Forall (in_key_range start stop) rows →
  NoDup (hbase.Row <$> rows) →
  ∃ m,
    returns (RangeGet s start stop limit) (Ok m) ∧
    Z.of_nat (size m) <= Z.max 0 limit ∧
    (∀ k v, m !! k = Some v →
            key_le start k ∧ key_le k stop ∧
            ∃ r, r ∈ rows ∧ hbase.Row r = k ∧ valueOf r = v) ∧
    (Z.of_nat (size m) < limit →
       size m = length (livePrefix rows) ∧
       (∀ r, r ∈ livePrefix rows → m !! hbase.Row r = Some (valueOf r)) ∧
       (∀ r, rows !! size m = Some r → lenColumns r = 0%nat)) ∧
    (livePrefix rows = [] → m = ∅).
Proof.
  intros Ht rows Hok Hrange Hnd.
  set (taken := take (Z.to_nat limit) (livePrefix rows)).
  exists (insertRows taken ∅).
  destruct (livePrefix_prefix rows) as [rest Hrest].
  assert (Htaken : ∃ rest', rows = taken ++ rest').
  { exists (drop (Z.to_nat limit) (livePrefix rows) ++ rest).
    rewrite app_assoc. unfold taken. by rewrite take_drop. }
  destruct Htaken as [rest' Htaken].
  assert (Hnd_lp : NoDup (hbase.Row <$> livePrefix rows)).
  { rewrite Hrest, fmap_app in Hnd. by apply NoDup_app in Hnd as [? _]. }
  assert (Hnd_tk : NoDup (hbase.Row <$> taken)).
  { rewrite Htaken, fmap_app in Hnd. by apply NoDup_app in Hnd as [? _]. }
  assert (Hsize : size (insertRows taken ∅) = length taken).
  { rewrite insertRows_size_NoDup; [by rewrite map_size_empty | done |].
    intros. apply lookup_empty. }
  assert (Hlen : length taken = Nat.min (Z.to_nat limit) (length (livePrefix rows))).
  { unfold taken. apply length_take. }
  split; [| split; [| split; [| split]]].
  - unfold RangeGet, returns. rewrite Ht.
    unfold themis.GetScanner, themis.Close. go_unfold. simpl.
    match goal with |- context [rangeLoop ?n ?sc ?m] =>
      pose proof (rangeLoop_run n sc m) as Hrun;
      destruct (rangeLoop n sc m) as [o tr] end.
    simpl in Hrun. rewrite Hrun by done. done.
  - rewrite Hsize, Hlen. lia.
  - intros k v Hkv.
    apply insertRows_lookup in Hkv as [Hkv | (r & Hin & Hk & Hv)];
      [by rewrite lookup_empty in Hkv|].
    assert (Hrows : r ∈ rows).
    { rewrite Htaken. apply elem_of_app. by left. }
    pose proof (proj1 (Forall_forall _ _) Hrange r Hrows) as [Hlo Hhi].
    subst k. split; [done|]. split; [done|]. by exists r.
  - intros Hfew. rewrite Hsize, Hlen in Hfew.
    assert (Hall : taken = livePrefix rows).
    { unfold taken. apply take_ge. lia. }
    rewrite Hsize, Hall. split; [done|]. split.
    + intros r Hin. by apply insertRows_complete.
    + apply livePrefix_stop.
  - intros Hnone. unfold taken. by rewrite Hnone, take_nil.
Qed.

(** *** Batches *)

(** Rows that all carry the fixed column end up in the mapping. *)
Lemma batchLoop_rows (rows : list hbase.ResultRow) (m : gmap string bytes) :
  Forall (fun r => is_Some (hbase.Columns r !! hbaseFmlAndQual)) rows →
  batchLoop (Some <$> rows) m = (Done (insertRows rows m), []).
Proof.
  revert m. induction rows as [|r rows IH]; intros m Hall; simpl; [done|].
  apply Forall_cons in Hall as [[c Hc] Hall].
  unfold fixedValue. rewrite Hc. go_unfold. simpl.
  rewrite (IH _ Hall). simpl.
  unfold valueOf. by rewrite Hc.
Qed.

(** A nil row, or a row without the fixed column, makes the loop panic. *)
Lemma batchLoop_panics (rows : list (option hbase.ResultRow)) (m : gmap string bytes) :
  (None ∈ rows ∨ ∃ r, Some r ∈ rows ∧ columnless r) →
  fst (batchLoop rows m) = Panic.
Proof.
  revert m. induction rows as [|[r|] rows IH]; intros m Hbad; simpl.
  - destruct Hbad as [H | (r & H & _)]; by apply elem_of_nil in H.
  - unfold fixedValue. go_unfold.
    destruct (hbase.Columns r !! hbaseFmlAndQual) as [c|] eqn:Hc; simpl; [|done].
    assert (Hrest : None ∈ rows ∨ ∃ r, Some r ∈ rows ∧ columnless r).
    { destruct Hbad as [H | (r' & H & Hcl)].
      - apply elem_of_cons in H as [[=] | H]. by left.
      - apply elem_of_cons in H as [[= <-] | H].
        + unfold columnless in Hcl. congruence.
        + right. by exists r'. }
    specialize (IH (<[hbase.Row r := hbase.Value c]> m) Hrest).
    destruct (batchLoop rows _) as [o tr]. simpl in IH. by subst o.
  - done.
Qed.

(** *** Versions, over the reference engine *)

Import refengine.

Lemma latest_None (cells : list Cell) (k : bytes) (range : option (Z * Z)) :
  latest cells k range = None →
  ∀ c, c ∈ cells → c_row c = k → in_ts_rangeb range (c_ts c) = false.
Proof.
  induction cells as [|x cells IH]; simpl; intros Hnone c Hin Hk;
    [by apply elem_of_nil in Hin|].
  destruct (String.eqb (c_row x) k && in_ts_rangeb range (c_ts x)) eqn:Hx.
  - destruct (latest cells k range) as [b|]; [|done].
    by destruct (c_ts x <? c_ts b).
  - apply elem_of_cons in Hin as [-> | Hin]; [| by apply IH].
    rewrite Hk, String.eqb_refl in Hx. simpl in Hx. done.
Qed.

Lemma latest_Some (cells : list Cell) (k : bytes) (range : option (Z * Z)) (c : Cell) :
  latest cells k range = Some c →
  c ∈ cells ∧ c_row c = k ∧ in_ts_rangeb range (c_ts c) = true ∧
  ∀ c', c' ∈ cells → c_row c' = k → in_ts_rangeb range (c_ts c') = true →
        c_ts c' <= c_ts c.
Proof.
  revert c. induction cells as [|x cells IH]; intros c; simpl; [done|].
  destruct (String.eqb (c_row x) k && in_ts_rangeb range (c_ts x)) eqn:Hx.
  - apply andb_true_iff in Hx as [Hk Hr]. apply String.eqb_eq in Hk.
    destruct (latest cells k range) as [b|] eqn:Hb.
    + destruct (IH b eq_refl) as (Hin & Hbk & Hbr & Hmax).
      destruct (c_ts x <? c_ts b) eqn:Hlt; intros [= <-].
      * apply Z.ltb_lt in Hlt.
        split; [| split; [| split]]; [by apply elem_of_cons; right | done | done |].
        intros c' [-> | Hc']%elem_of_cons ? ?; [lia | by apply Hmax].
      * apply Z.ltb_ge in Hlt.
        split; [| split; [| split]]; [by apply elem_of_cons; left | done | done |].
        intros c' [-> | Hc']%elem_of_cons ? ?; [lia|].
        etrans; [by apply Hmax | done].
    + intros [= <-].
      split; [| split; [| split]]; [by apply elem_of_cons; left | done | done |].
      intros c' [-> | Hc']%elem_of_cons Hk' Hr'; [lia|].
      rewrite (latest_None _ _ _ Hb c' Hc' Hk') in Hr'. done.
  - intros Hc. destruct (IH c Hc) as (Hin & Hck & Hcr & Hmax).
    split; [| split; [| split]]; [by apply elem_of_cons; right | done | done |].
    intros c' [-> | Hc']%elem_of_cons Hk' Hr'; [| by apply Hmax].
    rewrite Hk', String.eqb_refl, Hr' in Hx. done.
Qed.

Lemma in_ts_rangeb_spec (range : option (Z * Z)) (ts : Z) :
  in_ts_rangeb range ts = true ↔ in_ts_range range ts.
Proof.
  destruct range as [[from to]|]; simpl; [|done].
  rewrite andb_true_iff, Z.leb_le, Z.ltb_lt. done.
Qed.

(** The reading of bounds that start at zero. *)
Lemma rangeOf_zero (to : Z) :
  rangeOf 0 to = if to =? 0 then None else Some (0, to).
Proof. reflexivity. Qed.

(** What [MvccGet] answers over the reference engine. *)
Lemma MvccGet_ref (cells : list Cell) (name : string) (k : bytes) (ver : kv.Version) :
  fst (MvccGet (newHbaseSnapshot (Some (refTxn cells)) name) k ver) =
    match latest cells k (rangeOf 0 (wrap64 (kv.Ver ver + 1))) with
    | Some c => Done (Ok (c_val c))
    | None => Done (Err (Trace (Trace ErrNotExist)))
    end.
Proof.
  unfold MvccGet, internalGet, themis.Get, fixedValue. go_unfold. simpl.
  unfold get. simpl.
  destruct (latest cells k _) as [c|]; simpl; [|done].
  unfold lenColumns. simpl. rewrite map_size_singleton. simpl.
  by rewrite lookup_singleton_eq.
Qed.

(** When a range holds exactly the versions up to [V] of the table, the
    latest write in it is the one visible at [V]. *)
Lemma latest_upto (cells : list Cell) (k : bytes) (V : Z) (range : option (Z * Z)) :
  (∀ c, c ∈ cells → (in_ts_rangeb range (c_ts c) = true ↔ c_ts c <= V)) →
  match latest cells k range with
  | Some c => visible cells k V (c_val c)
  | None => ∀ c, c ∈ cells → c_row c = k → V < c_ts c
  end.
Proof.
  intros Hrange. destruct (latest cells k range) as [c|] eqn:Hl.
  - apply latest_Some in Hl as (Hin & Hk & Hr & Hmax).
    exists c. split; [| split; [| split; [| split]]]; [done | done | | done |].
    + by apply Hrange.
    + intros c' Hin' Hk' Hle. apply Hmax; try done. by apply Hrange.
  - intros c Hin Hk. pose proof (latest_None _ _ _ Hl c Hin Hk) as Hr.
    destruct (Z.le_gt_cases (c_ts c) V) as [Hle | Hgt]; [|lia].
    apply (Hrange c Hin) in Hle. congruence.
Qed.

(** The range [MvccGet] asks for holds exactly the versions up to [ver.Ver]:
    below the greatest version by its ceiling, and at the greatest version,
    where the ceiling has wrapped to zero, as no range at all. *)
Lemma mvcc_range_upto (cells : list Cell) (ver : kv.Version) :
  is_uint64 (kv.Ver ver) →
  (∀ c, c ∈ cells → 0 <= c_ts c) →
  (kv.Ver ver = uint64_max → ∀ c, c ∈ cells → c_ts c <= uint64_max) →
  ∀ c, c ∈ cells →
    (in_ts_rangeb (rangeOf 0 (wrap64 (kv.Ver ver + 1))) (c_ts c) = true ↔
     c_ts c <= kv.Ver ver).
Proof.
  intros Hu Hlo Hhi c Hin. pose proof (Hlo c Hin) as H0.
  destruct (wrap64_succ _ Hu) as [Hlt Hmax]. rewrite rangeOf_zero.
  destruct (Z.eq_dec (kv.Ver ver) uint64_max) as [Heq | Hne].
  - rewrite (Hmax Heq). simpl. rewrite Heq. split; [|done].
    intros _. by apply Hhi.
  - unfold is_uint64 in Hu. rewrite Hlt by lia.
    destruct (kv.Ver ver + 1 =? 0) eqn:Hz; [apply Z.eqb_eq in Hz; lia|].
    simpl. rewrite andb_true_iff, Z.leb_le, Z.ltb_lt. lia.
Qed.

(** X13: over an engine that answers the latest write inside the range it
    is asked for, and below the greatest version, [MvccGet] returns the value
    visible at the latest version that is at most [ver.Ver], and fails with
    [ErrNotExist] when the key has no such version. *)
Lemma MvccGet_visible (cells : list Cell) (name : string) (k : bytes) (ver : kv.Version) :
  0 <= kv.Ver ver < uint64_max →
  (∀ c, c ∈ cells → 0 <= c_ts c) →
  let s := newHbaseSnapshot (Some (refTxn cells)) name in
  (∃ v, returns (MvccGet s k ver) (Ok v) ∧ visible cells k (kv.Ver ver) v) ∨
  (fails_with (MvccGet s k ver) ErrNotExist ∧
   ∀ c, c ∈ cells → c_row c = k → kv.Ver ver < c_ts c).
Proof.
  intros Hv Hts s. unfold fails_with, returns. subst s. rewrite MvccGet_ref.
  assert (is_uint64 (kv.Ver ver)) as Hu by (unfold is_uint64; lia).
  assert (Hhi : kv.Ver ver = uint64_max → ∀ c, c ∈ cells → c_ts c <= uint64_max)
    by lia.
  pose proof (latest_upto cells k (kv.Ver ver) _
                (mvcc_range_upto cells ver Hu Hts Hhi)) as Hl.
  destruct (latest cells k _) as [c|].
  - left. by exists (c_val c).
  - right. split; [eexists; split; reflexivity | done].
Qed.

(** C1: over an engine that answers the latest write inside the range it is
    asked for, [MvccGet] at any version returns the value visible at the
    latest version that is at most [ver.Ver], and fails with [ErrNotExist]
    when the key has no such version, a key never written included.  With
    "a" written with "1" at version 1 and "2" at version 2, it returns "1"
    at version 1, "2" at version 2, and fails with [ErrNotExist] at
    version 0. *)
Theorem MvccGet_latest_version
    (cells : list Cell) (name : string) (k : bytes) (ver : kv.Version) :
  is_uint64 (kv.Ver ver) →
  (∀ c, c ∈ cells → is_uint64 (c_ts c)) →
  let s := newHbaseSnapshot (Some (refTxn cells)) name in
  let ex := newHbaseSnapshot (Some (refTxn sample.versions)) name in
  ((∃ v, returns (MvccGet s k ver) (Ok v) ∧ visible cells k (kv.Ver ver) v) ∨
   (fails_with (MvccGet s k ver) ErrNotExist ∧
    ∀ c, c ∈ cells → c_row c = k → kv.Ver ver < c_ts c)) ∧
  ((∀ c, c ∈ cells → c_row c = k → kv.Ver ver < c_ts c) →
   fails_with (MvccGet s k ver) ErrNotExist) ∧
  returns (MvccGet ex "a" {| kv.Ver := 1 |}) (Ok "1") ∧
  returns (MvccGet ex "a" {| kv.Ver := 2 |}) (Ok "2") ∧
  returns (MvccGet ex "a" {| kv.Ver := 0 |}) (Err (Trace (Trace ErrNotExist))).
Proof.
  intros Hu Hts s ex.
  assert (Hlo : ∀ c, c ∈ cells → 0 <= c_ts c) by (intros c Hc; by apply Hts).
  assert (Hhi : kv.Ver ver = uint64_max → ∀ c, c ∈ cells → c_ts c <= uint64_max)
    by (intros _ c Hc; by apply Hts).
  pose proof (latest_upto cells k (kv.Ver ver) _
                (mvcc_range_upto cells ver Hu Hlo Hhi)) as Hl.
  unfold fails_with, returns. subst s ex. rewrite !MvccGet_ref.
  split; [| split; [| repeat split]].
  - destruct (latest cells k _) as [c|].
    + left. by exists (c_val c).
    + right. split; [eexists; split; reflexivity | done].
  - intros Hnone. destruct (latest cells k _) as [c|].
    + destruct Hl as (c' & Hin & Hk & Hle & _). specialize (Hnone c' Hin Hk). lia.
    + eexists; split; reflexivity.
Qed.

(** *** Rows of the reference engine *)

Lemma rowOf_ok (c : Cell) : row_ok (rowOf c).
Proof. intros _. exists {| hbase.Ts := c_ts c; hbase.Value := c_val c |}.
       apply lookup_singleton_eq. Qed.

Lemma get_row_ok (cells : list Cell) (tbl : string) (g : hbase.Get) (r : hbase.ResultRow) :
  fst (get cells tbl g) = Some r → row_ok r.
Proof.
  unfold get. simpl. destruct (latest cells _ _) as [c|]; simpl; [|done].
  intros [= <-]. apply rowOf_ok.
Qed.

Lemma scan_rows_ok (cells : list Cell) (tbl start : bytes) (stop : option bytes)
      (batch : Z) (range : option (Z * Z)) :
  Forall row_ok (scan cells tbl start stop batch range).
Proof.
  apply Forall_forall. intros r Hr. unfold scan in Hr.
  apply list_elem_of_omap in Hr as (k & _ & Hk).
  destruct (latest cells k _) as [c|]; simpl in Hk; [|done].
  injection Hk as <-. apply rowOf_ok.
Qed.

Lemma scan_head_ok (cells : list Cell) (tbl start : bytes) (stop : option bytes)
      (batch : Z) (range : option (Z * Z)) (r : hbase.ResultRow) :
  head (scan cells tbl start stop batch range) = Some r → row_ok r.
Proof.
  intros Hhd. pose proof (scan_rows_ok cells tbl start stop batch range) as Hall.
  destruct (scan cells tbl start stop batch range) as [|r' rows]; [done|].
  injection Hhd as <-. by apply Forall_cons in Hall as [? _].
Qed.

End Proofs.

(** * The properties on the sample data *)

Section Samples.

Import refengine sample.
#[local] Existing Instance fq.

(** The example of the versions of "a". *)
Example MvccGet_versions :
  returns (MvccGet snap "a" {| kv.Ver := 1 |}) (Ok "1") ∧
  returns (MvccGet snap "a" {| kv.Ver := 2 |}) (Ok "2") ∧
  returns (MvccGet snap "a" {| kv.Ver := 0 |}) (Err (Trace (Trace ErrNotExist))) ∧
  returns (MvccGet snap "b" {| kv.Ver := 2 |}) (Err (Trace (Trace ErrNotExist))).
Proof. repeat split; vm_compute; reflexivity. Qed.

(** The keys that exist are returned with their values. *)
Example BatchGet_existing :
  returns (BatchGet snap ["a"; "c"]) (Ok {[ "a" := "2"; "c" := "3" ]}).
Proof. vm_compute. reflexivity. Qed.

(** C3, on a batch with a key that does not exist: the engine answers "b"
    with a nil row, or with a row that has no columns, and [BatchGet]
    panics at it instead of leaving "b" out of the mapping. *)
Theorem BatchGet_missing_key_panics :
  themis.txn_batchGet (refTxn cells) "t"
    (map (fun k => hbase.AddColumn "f" "q" (hbase.NewGet k)) ["a"; "b"]) =
    ([Some (rowOf {| c_row := "a"; c_ts := 2; c_val := "2" |}); None], None) ∧
  panics (BatchGet snap ["a"; "b"]) ∧
  panics (BatchGet (newHbaseSnapshot (Some sparse) "t") ["a"; "b"]) ∧
  fails_with (Get snap "b") ErrNotExist.
Proof.
  split; [reflexivity|]. split; [vm_compute; reflexivity|].
  split; [vm_compute; reflexivity|].
  eexists. split; vm_compute; reflexivity.
Qed.

(** C5, at a string: [NewIterator] does not fail; it returns the nil
    iterator. *)
Lemma NewIterator_string_param :
  ¬ fails_fast (NewIterator snap (ParamString "a")) ∧
  returns (NewIterator snap (ParamString "a")) None.
Proof. split; [intros H; exact H | reflexivity]. Qed.

Lemma NewIterator_bad_param_witness :
  assert_bytes (ParamKey "a") = None ∧
  NewIterator snap (ParamKey "a") =
    (Done None, [EvLogErrorf "hbase iterator parameter error, %+v"]).
Proof.
  split; [reflexivity|].
  apply (NewIterator_bad_param snap (ParamKey "a")). reflexivity.
Defined.

Lemma MvccGet_latest_version_witness :
  let ex := newHbaseSnapshot (Some (refTxn versions)) "t" in
  is_uint64 uint64_max ∧
  (∀ c, c ∈ cells → is_uint64 (c_ts c)) ∧
  ((∃ v, returns (MvccGet snap "a" {| kv.Ver := uint64_max |}) (Ok v) ∧
         visible cells "a" uint64_max v) ∨
   (fails_with (MvccGet snap "a" {| kv.Ver := uint64_max |}) ErrNotExist ∧
    ∀ c, c ∈ cells → c_row c = "a"%string → uint64_max < c_ts c)) ∧
  ((∀ c, c ∈ cells → c_row c = "a"%string → uint64_max < c_ts c) →
   fails_with (MvccGet snap "a" {| kv.Ver := uint64_max |}) ErrNotExist) ∧
  returns (MvccGet ex "a" {| kv.Ver := 1 |}) (Ok "1") ∧
  returns (MvccGet ex "a" {| kv.Ver := 2 |}) (Ok "2") ∧
  returns (MvccGet ex "a" {| kv.Ver := 0 |}) (Err (Trace (Trace ErrNotExist))).
Proof.
  intros ex.
  assert (Hu : is_uint64 uint64_max) by (unfold is_uint64, uint64_max; lia).
  assert (Hts : ∀ c, c ∈ cells → is_uint64 (c_ts c)).
  { intros c Hin. unfold cells in Hin.
    repeat (apply elem_of_cons in Hin as [-> | Hin];
            [unfold is_uint64, uint64_max; simpl; lia|]).
    by apply elem_of_nil in Hin. }
  split; [exact Hu|]. split; [exact Hts|].
  exact (MvccGet_latest_version cells "t" "a" {| kv.Ver := uint64_max |} Hu Hts).
Defined.

(** At the greatest version the ceiling has wrapped to zero and [MvccGet]
    asks what [Get] asks: it returns the latest value of the key. *)
Example MvccGet_at_greatest_version :
  MvccGet snap "a" {| kv.Ver := uint64_max |} = Get snap "a" ∧
  returns (MvccGet snap "a" {| kv.Ver := uint64_max |}) (Ok "2").
Proof. split; vm_compute; reflexivity. Qed.


Lemma Get_not_found_iff_witness :
  let g := hbase.AddColumn "f" "q" (hbase.NewGet "a") in
  let fetched := themis.txn_get (refTxn cells) "t" g in
  txn snap = Some (refTxn cells) ∧
  (∀ r, fst fetched = Some r → row_ok r) ∧
  (fails_with (Get snap "a") ErrNotExist ↔
     snd fetched = None ∧
     (fst fetched = None ∨ ∃ r, fst fetched = Some r ∧ columnless r)) ∧
  (∀ r c, snd fetched = None → fst fetched = Some r →
          hbase.Columns r !! hbaseFmlAndQual = Some c →
          returns (Get snap "a") (Ok (hbase.Value c))) ∧
  (∀ e, snd fetched = Some e →
        returns (Get snap "a") (Err (Trace (Trace (Lower e)))) ∧
        fails_with (Get snap "a") (Lower e)).
Proof.
  intros g fetched.
  assert (Hok : ∀ r, fst fetched = Some r → row_ok r).
  { intros r. apply get_row_ok. }
  split; [reflexivity|]. split; [exact Hok|].
  exact (Get_not_found_iff snap (refTxn cells) "a" eq_refl Hok).
Defined.

Lemma iterator_pre_advanced_witness :
  let cursor := themis.txn_scan (refTxn cells) "t" "a" None hbaseBatchSize in
  txn snap = Some (refTxn cells) ∧
  (∀ range r, head (cursor range) = Some r → row_ok r) ∧
  pre_advanced (NewIterator snap (ParamBytes "a")) (cursor None) ∧
  pre_advanced (NewMvccIterator snap "a" {| kv.Ver := 1 |})
               (cursor (Some (0, wrap64 (1 + 1)))).
Proof.
  intros cursor.
  assert (Hok : ∀ range r, head (cursor range) = Some r → row_ok r).
  { intros range r. apply scan_head_ok. }
  split; [reflexivity|]. split; [exact Hok|].
  exact (iterator_pre_advanced snap (refTxn cells) "a" {| kv.Ver := 1 |} eq_refl Hok).
Defined.

Lemma RangeGet_bounded_witness :
  let rows := themis.txn_scan (refTxn cells) "t" "a" (Some "z") 5 None in
  txn snap = Some (refTxn cells) ∧
  Forall row_ok rows ∧
  Forall (in_key_range "a" "z") rows ∧
  NoDup (hbase.Row <$> rows) ∧
  ∃ m,
    returns (RangeGet snap "a" "z" 5) (Ok m) ∧
    Z.of_nat (size m) <= Z.max 0 5 ∧
    (∀ k v, m !! k = Some v →
            key_le "a" k ∧ key_le k "z" ∧
            ∃ r, r ∈ rows ∧ hbase.Row r = k ∧ valueOf r = v) ∧
    (Z.of_nat (size m) < 5 →
       size m = length (livePrefix rows) ∧
       (∀ r, r ∈ livePrefix rows → m !! hbase.Row r = Some (valueOf r)) ∧
       (∀ r, rows !! size m = Some r → lenColumns r = 0%nat)) ∧
    (livePrefix rows = [] → m = ∅).
Proof.
  intros rows.
  assert (Hok : Forall row_ok rows) by apply scan_rows_ok.
  assert (Hrange : Forall (in_key_range "a" "z") rows).
  { repeat constructor. }
  assert (Hnd : NoDup (hbase.Row <$> rows)).
  { apply (bool_decide_unpack _). vm_compute. exact I. }
  split; [reflexivity|]. split; [exact Hok|]. split; [exact Hrange|].
  split; [exact Hnd|].
  exact (RangeGet_bounded snap (refTxn cells) "a" "z" 5 eq_refl Hok Hrange Hnd).
Defined.

End Samples.

(** * Further properties of the adapter *)

Section MoreProofs.

Context {col : FixedColumn}.

(** *** A released snapshot *)

(** X1: once [Release] has cleared the handle, every read of the snapshot
    panics at the nil handle, before any call reaches the engine. *)
Theorem reads_after_Release_panic
    (s : hbaseSnapshot) (k stop : bytes) (keys : list bytes) (limit : Z)
    (ver : kv.Version) :
  ∃ s' tr,
    Release s = (Done s', tr) ∧
    Get s' k = (Panic, []) ∧
    MvccGet s' k ver = (Panic, []) ∧
    BatchGet s' keys = (Panic, []) ∧
    RangeGet s' k stop limit = (Panic, []) ∧
    NewIterator s' (ParamBytes k) = (Panic, []) ∧
    NewMvccIterator s' k ver = (Panic, []).
Proof.
  destruct s as [[t|] name]; unfold Release, themis.Release; go_unfold; simpl;
    eexists _, _; (split; [reflexivity|]); repeat split.
Qed.

(** *** Walking a cursor *)

Lemma Next_open (it : hbaseIter) (sc : themis.ThemisScanner) :
  ThemisScanner it = Some sc → themis.sc_closed sc = false →
  Next it =
    (Done ({| ThemisScanner :=
                Some {| themis.sc_rows := themis.sc_rows sc;
                        themis.sc_range := themis.sc_range sc;
                        themis.sc_pos := S (themis.sc_pos sc);
                        themis.sc_closed := false |};
              rs := themis.sc_rows sc (themis.sc_range sc) !! themis.sc_pos sc |},
           None),
     [EvScannerNext]).
Proof.
  intros Hsc Hopen. unfold Next, themis.Next. rewrite Hsc. go_unfold. simpl.
  by rewrite Hopen.
Qed.

(** [n] calls of [Next] move an open cursor [n] rows on. *)
Lemma advance_open (n : nat) (it : hbaseIter) (sc : themis.ThemisScanner) :
  ThemisScanner it = Some sc → themis.sc_closed sc = false →
  advance n it =
    (Done (Ok {| ThemisScanner :=
                   Some {| themis.sc_rows := themis.sc_rows sc;
                           themis.sc_range := themis.sc_range sc;
                           themis.sc_pos := (themis.sc_pos sc + n)%nat;
                           themis.sc_closed := false |};
                 rs := match n with
                       | O => rs it
                       | S n' => themis.sc_rows sc (themis.sc_range sc)
                                   !! (themis.sc_pos sc + n')%nat
                       end |}),
     replicate n EvScannerNext).
Proof.
  revert it sc. induction n as [|n IH]; intros it sc Hsc Hopen; simpl.
  - destruct it as [sc' r]. simpl in *. subst sc'. destruct sc. simpl in *.
    subst. by rewrite Nat.add_0_r.
  - go_unfold. rewrite (Next_open it sc Hsc Hopen). simpl.
    match goal with |- context [advance n ?it'] =>
      rewrite (IH it' _ eq_refl eq_refl) end.
    simpl. rewrite Nat.add_succ_r. f_equal. f_equal. f_equal. f_equal.
    destruct n as [|n']; simpl; [by rewrite Nat.add_0_r|].
    by rewrite Nat.add_succ_r.
Qed.

(** An iterator that has just pulled the first row of an open cursor. *)
Lemma walks_fresh (mk : Go (option hbaseIter)) (tr : list event)
      (src : option (Z * Z) → list hbase.ResultRow) (range : option (Z * Z)) (n : nat) :
  mk = (Done (Some {| ThemisScanner :=
                        Some {| themis.sc_rows := src; themis.sc_range := range;
                                themis.sc_pos := 1; themis.sc_closed := false |};
                      rs := src range !! 0%nat |}), tr) →
  walks mk (src range) n.
Proof.
  intros ->. unfold walks, returns. simpl.
  eexists _, _. split; [reflexivity|].
  erewrite advance_open; [| reflexivity | reflexivity]. simpl.
  split; [reflexivity|].
  split; [eexists; by apply Next_open|].
  assert (Hrs : ∀ l : list hbase.ResultRow,
             match n with O => l !! 0%nat | S n' => l !! S n' end = l !! n)
    by (intros l; by destruct n).
  rewrite Hrs.
  split; [reflexivity|].
  split; [| split; [| reflexivity]];
    unfold Valid, themis.Closed; simpl;
    (destruct (src range !! n) as [r|]; simpl;
     [destruct (Nat.eqb (lenColumns r) 0) eqn:Hlen;
      [apply Nat.eqb_eq in Hlen | apply Nat.eqb_neq in Hlen] |]).
  - split; [done|]. intros (r' & [= <-] & Hne). done.
  - split; [intros _; by exists r | done].
  - split; [done|]. intros (r' & [=] & _).
  - split; [|done]. intros _ (r' & [= <-] & Hne). done.
  - split; [done|]. intros Hno. destruct Hno. by exists r.
  - split; [|done]. intros _ (r' & [=] & _).
Qed.

(** X2: after [NewIterator] or [NewMvccIterator], [n] further calls of [Next]
    each return a nil error, none panics, and they leave the iterator on the
    row of index [n] of its cursor, where the next call of [Next] returns a
    nil error again; [Valid] then holds exactly when that row exists
    and has columns, so it stays false once the cursor is used up; [Close]
    closes the cursor that was opened. *)
Theorem Next_walks_cursor
    (s : hbaseSnapshot) (t : themis.Txn) (k : bytes) (ver : kv.Version) (n : nat) :
  txn s = Some t →
  let cursor := themis.txn_scan t (storeName s) k None hbaseBatchSize in
  walks (NewIterator s (ParamBytes k)) (cursor None) n ∧
  walks (NewMvccIterator s k ver) (cursor (Some (0, wrap64 (kv.Ver ver + 1)))) n.
Proof.
  intros Ht cursor. split.
  - eapply walks_fresh. unfold NewIterator. simpl. rewrite Ht. reflexivity.
  - eapply walks_fresh. unfold NewMvccIterator. rewrite Ht. reflexivity.
Qed.

(** *** Closing an iterator *)

(** X3: [Close] closes the cursor once when the iterator holds one, and a
    second [Close] makes no call and changes nothing. *)
Theorem Close_idempotent (it : hbaseIter) :
  ∃ it' tr,
    Close it = (Done it', tr) ∧
    closes tr = match ThemisScanner it with Some _ => 1%nat | None => 0%nat end ∧
    Close it' = (Done it', []) ∧
    (it0 ← Close it; Close it0) = (Done it', tr).
Proof.
  destruct it as [[sc|] r]; unfold Close, themis.Close; go_unfold; simpl;
    eexists _, _; repeat split.
Qed.

(** X4: on an iterator that has been closed, [Next], [Key] and [Value] all
    panic at a nil pointer; only [Valid] and [Close] are safe to call. *)
Theorem closed_iterator_use_panics (it : hbaseIter) :
  ∃ it' tr,
    Close it = (Done it', tr) ∧
    Next it' = (Panic, []) ∧
    Key it' = (Panic, []) ∧
    Value it' = (Panic, []).
Proof.
  destruct it as [[sc|] r]; unfold Close, themis.Close; go_unfold; simpl;
    eexists _, _; repeat split.
Qed.

(** X5: whenever [Valid] answers true, the iterator has a current row with
    columns on an open cursor; [Key] returns the key of that row, and
    [Value] the value of its fixed column when the row carries it. *)
Theorem Valid_guards_Key_Value (it : hbaseIter) :
  fst (Valid it) = Done true →
  ∃ r sc,
    rs it = Some r ∧ lenColumns r ≠ 0%nat ∧
    ThemisScanner it = Some sc ∧ themis.Closed sc = false ∧
    Key it = (Done (hbase.Row r), []) ∧
    (row_ok r → Value it = (Done (valueOf r), [])) ∧
    (columnless r → Value it = (Panic, [])).
Proof.
  unfold Valid, Key, Value. destruct it as [sc r]. simpl.
  destruct r as [r|]; [|done].
  destruct (Nat.eqb (lenColumns r) 0) eqn:Hlen; [done|].
  apply Nat.eqb_neq in Hlen.
  destruct sc as [sc|]; [|done].
  destruct (themis.Closed sc) eqn:Hcl; [done|].
  intros _. exists r, sc. repeat split; try done.
  - intros Hok. by apply fixedValue_ok.
  - unfold columnless, fixedValue. by intros ->.
Qed.

(** *** Batches *)

Lemma batchLoop_trace (rows : list (option hbase.ResultRow)) (m : gmap string bytes) :
  snd (batchLoop rows m) = [].
Proof.
  revert m. induction rows as [|[r|] rows IH]; intros m; simpl; try done.
  unfold fixedValue. go_unfold.
  destruct (hbase.Columns r !! hbaseFmlAndQual) as [c|]; simpl; [|done].
  specialize (IH (<[hbase.Row r := hbase.Value c]> m)).
  destruct (batchLoop rows _) as [o tr]. simpl in *. by subst tr.
Qed.

(** X6: when the engine answers a batch with rows that all carry the fixed
    column, [BatchGet] returns the mapping of exactly those rows: every entry
    is a row of the answer, a key the engine did not answer is absent, and
    with distinct keys every row is found with its value. *)
Theorem BatchGet_returns_rows
    (s : hbaseSnapshot) (t : themis.Txn) (keys : list bytes)
    (rows : list hbase.ResultRow) :
  txn s = Some t →
  let gets :=
    map (fun key => hbase.AddColumn hbaseColFamilyBytes hbaseQualifierBytes
                      (hbase.NewGet key)) keys in
  themis.txn_batchGet t (storeName s) gets = (Some <$> rows, None) →
  Forall (fun r => is_Some (hbase.Columns r !! hbaseFmlAndQual)) rows →
  ∃ m,
    BatchGet s keys = (Done (Ok m), [EvTxnBatchGet (storeName s) gets]) ∧
    (size m ≤ length rows)%nat ∧
    (∀ k v, m !! k = Some v → ∃ r, r ∈ rows ∧ hbase.Row r = k ∧ valueOf r = v) ∧
    (∀ k, k ∉ hbase.Row <$> rows → m !! k = None) ∧
    (NoDup (hbase.Row <$> rows) →
     size m = length rows ∧ ∀ r, r ∈ rows → m !! hbase.Row r = Some (valueOf r)).
Proof.
  intros Ht gets Hans Hall. exists (insertRows rows ∅).
  split; [| split; [| split; [| split]]].
  - unfold BatchGet, themis.BatchGet. fold gets. rewrite Ht. go_unfold. simpl.
    rewrite Hans. rewrite (batchLoop_rows rows ∅ Hall). done.
  - pose proof (insertRows_size rows ∅) as Hs. by rewrite map_size_empty in Hs.
  - intros k v Hkv. apply insertRows_lookup in Hkv as [Hkv | Hkv]; [|done].
    by rewrite lookup_empty in Hkv.
  - intros k Hk. rewrite insertRows_lookup_fresh by done. apply lookup_empty.
  - intros Hnd. split.
    + rewrite insertRows_size_NoDup; [by rewrite map_size_empty | done |].
      intros. apply lookup_empty.
    + intros r Hin. by apply insertRows_complete.
Qed.

(** X7: an error of the engine on a batch comes back from [BatchGet] wrapped
    once, with the engine's error as its cause; the rows of the answer are
    not looked at, so none of them can make the call panic. *)
Theorem BatchGet_engine_error
    (s : hbaseSnapshot) (t : themis.Txn) (keys : list bytes) (e : engine_error) :
  txn s = Some t →
  let gets :=
    map (fun key => hbase.AddColumn hbaseColFamilyBytes hbaseQualifierBytes
                      (hbase.NewGet key)) keys in
  snd (themis.txn_batchGet t (storeName s) gets) = Some e →
  BatchGet s keys = (Done (Err (Trace (Lower e))), [EvTxnBatchGet (storeName s) gets]) ∧
  fails_with (BatchGet s keys) (Lower e).
Proof.
  intros Ht gets He.
  assert (Heq : BatchGet s keys =
                (Done (Err (Trace (Lower e))), [EvTxnBatchGet (storeName s) gets])).
  { unfold BatchGet, themis.BatchGet. fold gets. rewrite Ht. go_unfold. simpl.
    destruct (themis.txn_batchGet t (storeName s) gets) as [rows err].
    simpl in He. by subst err. }
  split; [done|]. unfold fails_with, returns. rewrite Heq. eexists. split; done.
Qed.

(** *** Point lookups at a version *)

Lemma MvccGet_cases (s : hbaseSnapshot) (t : themis.Txn) (k : bytes) (ver : kv.Version) :
  txn s = Some t →
  let g := hbase.SetTsRange 0 (wrap64 (kv.Ver ver + 1))
             (hbase.AddColumn hbaseColFamilyBytes hbaseQualifierBytes (hbase.NewGet k)) in
  (∀ r, fst (themis.txn_get t (storeName s) g) = Some r → row_ok r) →
  fst (MvccGet s k ver) =
    match themis.txn_get t (storeName s) g with
    | (_, Some e) => Done (Err (Trace (Trace (Lower e))))
    | (None, None) => Done (Err (Trace (Trace ErrNotExist)))
    | (Some r, None) =>
      if Nat.eqb (lenColumns r) 0 then Done (Err (Trace (Trace ErrNotExist)))
      else Done (Ok (valueOf r))
    end.
Proof.
  intros Ht g Hok.
  pose proof (internalGet_cases s t g Ht Hok) as Hget.
  unfold MvccGet. fold g.
  destruct (internalGet s g) as [o tr]. simpl in Hget. subst o.
  destruct (themis.txn_get t (storeName s) g) as [[r|] [e|]]; try done.
  destruct (Nat.eqb (lenColumns r) 0); done.
Qed.

(** X8: [MvccGet] treats the answer of the engine as [Get] does: it fails
    with [ErrNotExist] exactly when the engine answers without an error and
    the row is absent or has no value in the fixed column, returns the bytes
    of that column otherwise, and hands an error of the engine back wrapped. *)
Theorem MvccGet_not_found_iff
    (s : hbaseSnapshot) (t : themis.Txn) (k : bytes) (ver : kv.Version) :
  txn s = Some t →
  let g := hbase.SetTsRange 0 (wrap64 (kv.Ver ver + 1))
             (hbase.AddColumn hbaseColFamilyBytes hbaseQualifierBytes (hbase.NewGet k)) in
  let fetched := themis.txn_get t (storeName s) g in
  (∀ r, fst fetched = Some r → row_ok r) →
  (fails_with (MvccGet s k ver) ErrNotExist ↔
     snd fetched = None ∧
     (fst fetched = None ∨ ∃ r, fst fetched = Some r ∧ columnless r)) ∧
  (∀ r c, snd fetched = None → fst fetched = Some r →
          hbase.Columns r !! hbaseFmlAndQual = Some c →
          returns (MvccGet s k ver) (Ok (hbase.Value c))) ∧
  (∀ e, snd fetched = Some e →
        returns (MvccGet s k ver) (Err (Trace (Trace (Lower e)))) ∧
        fails_with (MvccGet s k ver) (Lower e)).
Proof.
  intros Ht g fetched Hok.
  pose proof (MvccGet_cases s t k ver Ht Hok) as Hget. fold g fetched in Hget.
  unfold fails_with, returns. rewrite Hget. clear Hget.
  destruct fetched as [[r|] [e|]] eqn:Hf; simpl in *.
  - split; [split | split].
    + intros (err & [= <-] & Hc). done.
    + intros [[=] _].
    + intros ? ? [=].
    + intros e' [= <-]. split; [done|]. eexists. split; done.
  - pose proof (columnless_iff r (Hok r eq_refl)) as Hcl.
    destruct (Nat.eqb (lenColumns r) 0) eqn:Hlen.
    + apply Nat.eqb_eq in Hlen. split; [split | split].
      * intros _. split; [done|]. right. exists r. split; [done|]. by apply Hcl.
      * intros _. eexists. split; done.
      * intros r' c _ [= <-] Hc. apply Hcl in Hlen. unfold columnless in Hlen. congruence.
      * intros ? [=].
    + apply Nat.eqb_neq in Hlen. split; [split | split].
      * intros (err & [=] & _).
      * intros [_ [[=] | (r' & [= <-] & Hc)]]. by apply Hcl in Hc.
      * intros r' c _ [= <-] Hc. unfold valueOf. by rewrite Hc.
      * intros ? [=].
  - split; [split | split].
    + intros (err & [= <-] & Hc). done.
    + intros [[=] _].
    + intros ? ? _ [=].
    + intros e' [= <-]. split; [done|]. eexists. split; done.
  - split; [split | split].
    + intros _. split; [done|]. by left.
    + intros _. eexists. split; done.
    + intros ? ? _ [=].
    + intros ? [=].
Qed.

(** X9: a row that has columns but none in the fixed column passes the test
    for emptiness of [internalGet], and reading its value is a nil pointer:
    [Get] and [MvccGet] panic on it, after their one call of the engine. *)
Theorem foreign_columns_panic
    (s : hbaseSnapshot) (t : themis.Txn) (k : bytes) (ver : kv.Version)
    (r : hbase.ResultRow) :
  txn s = Some t →
  (∀ g, hbase.GetRow g = k → themis.txn_get t (storeName s) g = (Some r, None)) →
  lenColumns r ≠ 0%nat →
  columnless r →
  panics (Get s k) ∧ panics (MvccGet s k ver).
Proof.
  intros Ht Hans Hlen Hcl. apply Nat.eqb_neq in Hlen.
  unfold panics, Get, MvccGet, internalGet, themis.Get, fixedValue. rewrite Ht.
  go_unfold. simpl. rewrite !Hans by done. simpl.
  unfold columnless in Hcl. rewrite Hlen, Hcl. done.
Qed.

(** *** One call for each read *)

(** X10: on a live snapshot [Get] makes exactly one call of the engine, a
    fetch of the row [k] that selects the fixed column and has no timestamp
    range, and [BatchGet] makes exactly one call with one such request for
    each key, in the order of the keys; neither calls again, whatever the
    engine answers. *)
Theorem reads_call_engine_once
    (s : hbaseSnapshot) (t : themis.Txn) (k : bytes) (keys : list bytes) :
  txn s = Some t →
  trace (Get s k) =
    [EvTxnGet (storeName s)
       {| hbase.GetRow := k;
          hbase.GetColumns := [(hbaseColFamilyBytes, hbaseQualifierBytes)];
          hbase.TsRangeFrom := 0; hbase.TsRangeTo := 0 |}] ∧
  trace (BatchGet s keys) =
    [EvTxnBatchGet (storeName s)
       (map (fun key =>
               {| hbase.GetRow := key;
                  hbase.GetColumns := [(hbaseColFamilyBytes, hbaseQualifierBytes)];
                  hbase.TsRangeFrom := 0; hbase.TsRangeTo := 0 |}) keys)].
Proof.
  intros Ht. split.
  - unfold Get.
    match goal with |- context [internalGet s ?g] =>
      destruct (internalGet_trace s t g Ht) as [[Hp | [r Hr]] Htr];
      destruct (internalGet s g) as [o tr] end;
      simpl in *; subst; go_unfold; simpl; [done |].
    destruct r; reflexivity.
  - unfold BatchGet, themis.BatchGet. rewrite Ht. go_unfold. simpl.
    destruct (themis.txn_batchGet t (storeName s) _) as [rows [e|]]; simpl; [done|].
    pose proof (batchLoop_trace rows ∅) as Htr.
    destruct (batchLoop rows ∅) as [[m|] tr]; simpl in *; by subst tr.
Qed.

(** *** The limit of a range *)

(** X11: with a limit of zero or less [RangeGet] pulls no row: it opens the
    cursor, closes it, and returns the empty mapping and no error. *)
Theorem RangeGet_no_limit
    (s : hbaseSnapshot) (t : themis.Txn) (start stop : bytes) (limit : Z) :
  txn s = Some t →
  limit <= 0 →
  RangeGet s start stop limit =
    (Done (Ok ∅),
     [EvGetScanner (storeName s) start (Some stop) limit; EvScannerClose]).
Proof.
  intros Ht Hl. unfold RangeGet. rewrite Ht.
  assert (Z.to_nat limit = 0%nat) as -> by lia. reflexivity.
Qed.

(** X12: when the first row of the cursor has columns but none in the fixed
    column, [RangeGet] panics at it, and the deferred [Close] still closes the
    cursor. *)
Theorem RangeGet_foreign_row_panics
    (s : hbaseSnapshot) (t : themis.Txn) (start stop : bytes) (limit : Z)
    (r : hbase.ResultRow) :
  txn s = Some t →
  0 < limit →
  head (themis.txn_scan t (storeName s) start (Some stop) limit None) = Some r →
  lenColumns r ≠ 0%nat →
  columnless r →
  RangeGet s start stop limit =
    (Panic,
     [EvGetScanner (storeName s) start (Some stop) limit; EvScannerNext;
      EvScannerClose]).
Proof.
  intros Ht Hl Hhd Hlen Hcl. unfold RangeGet. rewrite Ht.
  destruct (Z.to_nat limit) as [|n] eqn:Hn; [lia|].
  unfold themis.GetScanner, themis.Close. go_unfold. simpl.
  unfold themis.Next, fixedValue. go_unfold. simpl.
  rewrite <- head_lookup, Hhd.
  assert (Nat.ltb 0 (lenColumns r) = true) as -> by (apply Nat.ltb_lt; lia).
  unfold columnless in Hcl. rewrite Hcl. reflexivity.
Qed.

End MoreProofs.

(** * The further properties on the sample data *)

Section MoreSamples.

Import refengine sample.
#[local] Existing Instance fq.

Lemma Next_walks_cursor_witness :
  let cursor := themis.txn_scan (refTxn cells) "t" "a" None hbaseBatchSize in
  txn snap = Some (refTxn cells) ∧
  walks (NewIterator snap (ParamBytes "a")) (cursor None) 1 ∧
  walks (NewMvccIterator snap "a" {| kv.Ver := 1 |})
        (cursor (Some (0, wrap64 (1 + 1)))) 1.
Proof.
  intros cursor. split; [reflexivity|].
  exact (Next_walks_cursor snap (refTxn cells) "a" {| kv.Ver := 1 |} 1 eq_refl).
Defined.

Lemma Valid_guards_Key_Value_witness :
  fst (Valid iter) = Done true ∧
  ∃ r sc,
    rs iter = Some r ∧ lenColumns r ≠ 0%nat ∧
    ThemisScanner iter = Some sc ∧ themis.Closed sc = false ∧
    Key iter = (Done (hbase.Row r), []) ∧
    (row_ok r → Value iter = (Done (valueOf r), [])) ∧
    (columnless r → Value iter = (Panic, [])).
Proof.
  assert (Hv : fst (Valid iter) = Done true) by (vm_compute; reflexivity).
  split; [exact Hv|]. exact (Valid_guards_Key_Value iter Hv).
Defined.

Lemma BatchGet_returns_rows_witness :
  let rows := [rowOf {| c_row := "a"; c_ts := 2; c_val := "2" |};
               rowOf {| c_row := "c"; c_ts := 1; c_val := "3" |}] in
  let gets := map (fun key => hbase.AddColumn "f" "q" (hbase.NewGet key)) ["a"; "c"] in
  txn snap = Some (refTxn cells) ∧
  themis.txn_batchGet (refTxn cells) "t" gets = (Some <$> rows, None) ∧
  Forall (fun r => is_Some (hbase.Columns r !! hbaseFmlAndQual)) rows ∧
  ∃ m,
    BatchGet snap ["a"; "c"] = (Done (Ok m), [EvTxnBatchGet "t" gets]) ∧
    (size m ≤ length rows)%nat ∧
    (∀ k v, m !! k = Some v → ∃ r, r ∈ rows ∧ hbase.Row r = k ∧ valueOf r = v) ∧
    (∀ k, k ∉ hbase.Row <$> rows → m !! k = None) ∧
    (NoDup (hbase.Row <$> rows) →
     size m = length rows ∧ ∀ r, r ∈ rows → m !! hbase.Row r = Some (valueOf r)).
Proof.
  intros rows gets.
  assert (Hans : themis.txn_batchGet (refTxn cells) "t" gets = (Some <$> rows, None))
    by reflexivity.
  assert (Hall : Forall (fun r => is_Some (hbase.Columns r !! hbaseFmlAndQual)) rows).
  { repeat constructor; eexists; apply lookup_singleton_eq. }
  split; [reflexivity|]. split; [exact Hans|]. split; [exact Hall|].
  exact (BatchGet_returns_rows snap (refTxn cells) ["a"; "c"] rows eq_refl Hans Hall).
Defined.

Lemma BatchGet_engine_error_witness :
  let s := newHbaseSnapshot (Some failing) "t" in
  let gets := map (fun key => hbase.AddColumn "f" "q" (hbase.NewGet key)) ["a"] in
  txn s = Some failing ∧
  snd (themis.txn_batchGet failing "t" gets) = Some "connection reset"%string ∧
  BatchGet s ["a"] =
    (Done (Err (Trace (Lower "connection reset"))), [EvTxnBatchGet "t" gets]) ∧
  fails_with (BatchGet s ["a"]) (Lower "connection reset").
Proof.
  intros s gets. split; [reflexivity|]. split; [reflexivity|].
  exact (BatchGet_engine_error s failing ["a"] "connection reset"%string
           eq_refl eq_refl).
Defined.

Lemma MvccGet_not_found_iff_witness :
  let g := hbase.SetTsRange 0 (wrap64 (1 + 1))
             (hbase.AddColumn "f" "q" (hbase.NewGet "a")) in
  let fetched := themis.txn_get (refTxn cells) "t" g in
  txn snap = Some (refTxn cells) ∧
  (∀ r, fst fetched = Some r → row_ok r) ∧
  (fails_with (MvccGet snap "a" {| kv.Ver := 1 |}) ErrNotExist ↔
     snd fetched = None ∧
     (fst fetched = None ∨ ∃ r, fst fetched = Some r ∧ columnless r)) ∧
  (∀ r c, snd fetched = None → fst fetched = Some r →
          hbase.Columns r !! hbaseFmlAndQual = Some c →
          returns (MvccGet snap "a" {| kv.Ver := 1 |}) (Ok (hbase.Value c))) ∧
  (∀ e, snd fetched = Some e →
        returns (MvccGet snap "a" {| kv.Ver := 1 |}) (Err (Trace (Trace (Lower e)))) ∧
        fails_with (MvccGet snap "a" {| kv.Ver := 1 |}) (Lower e)).
Proof.
  intros g fetched.
  assert (Hok : ∀ r, fst fetched = Some r → row_ok r).
  { intros r. apply get_row_ok. }
  split; [reflexivity|]. split; [exact Hok|].
  exact (MvccGet_not_found_iff snap (refTxn cells) "a" {| kv.Ver := 1 |} eq_refl Hok).
Defined.

Lemma foreign_columns_panic_witness :
  let s := newHbaseSnapshot (Some foreign) "t" in
  txn s = Some foreign ∧
  (∀ g, hbase.GetRow g = "x"%string →
        themis.txn_get foreign (storeName s) g = (Some foreignRow, None)) ∧
  lenColumns foreignRow ≠ 0%nat ∧
  columnless foreignRow ∧
  panics (Get s "x") ∧ panics (MvccGet s "x" {| kv.Ver := 1 |}).
Proof.
  intros s.
  assert (Hans : ∀ g, hbase.GetRow g = "x"%string →
                      themis.txn_get foreign (storeName s) g = (Some foreignRow, None))
    by (intros g _; reflexivity).
  assert (Hlen : lenColumns foreignRow ≠ 0%nat) by (vm_compute; discriminate).
  assert (Hcl : columnless foreignRow) by (vm_compute; reflexivity).
  split; [reflexivity|]. split; [exact Hans|]. split; [exact Hlen|].
  split; [exact Hcl|].
  exact (foreign_columns_panic s foreign "x" {| kv.Ver := 1 |} foreignRow
           eq_refl Hans Hlen Hcl).
Defined.

Lemma reads_call_engine_once_witness :
  txn snap = Some (refTxn cells) ∧
  trace (Get snap "a") =
    [EvTxnGet "t" {| hbase.GetRow := "a"; hbase.GetColumns := [("f", "q")];
                     hbase.TsRangeFrom := 0; hbase.TsRangeTo := 0 |}] ∧
  trace (BatchGet snap ["a"; "b"]) =
    [EvTxnBatchGet "t"
       (map (fun key => {| hbase.GetRow := key; hbase.GetColumns := [("f", "q")];
                           hbase.TsRangeFrom := 0; hbase.TsRangeTo := 0 |})
          ["a"; "b"])].
Proof.
  split; [reflexivity|].
  exact (reads_call_engine_once snap (refTxn cells) "a" ["a"; "b"] eq_refl).
Defined.

Lemma RangeGet_no_limit_witness :
  txn snap = Some (refTxn cells) ∧
  0 <= 0 ∧
  RangeGet snap "a" "z" 0 =
    (Done (Ok ∅), [EvGetScanner "t" "a" (Some "z") 0; EvScannerClose]).
Proof.
  assert (H0 : 0 <= 0) by lia.
  split; [reflexivity|]. split; [exact H0|].
  exact (RangeGet_no_limit snap (refTxn cells) "a" "z" 0 eq_refl H0).
Defined.

Lemma RangeGet_foreign_row_panics_witness :
  let s := newHbaseSnapshot (Some foreign) "t" in
  txn s = Some foreign ∧
  0 < 5 ∧
  head (themis.txn_scan foreign (storeName s) "a" (Some "z") 5 None) = Some foreignRow ∧
  lenColumns foreignRow ≠ 0%nat ∧
  columnless foreignRow ∧
  RangeGet s "a" "z" 5 =
    (Panic, [EvGetScanner "t" "a" (Some "z") 5; EvScannerNext; EvScannerClose]).
Proof.
  intros s.
  assert (H5 : 0 < 5) by lia.
  assert (Hlen : lenColumns foreignRow ≠ 0%nat) by (vm_compute; discriminate).
  assert (Hcl : columnless foreignRow) by (vm_compute; reflexivity).
  split; [reflexivity|]. split; [exact H5|]. split; [reflexivity|].
  split; [exact Hlen|]. split; [exact Hcl|].
  exact (RangeGet_foreign_row_panics s foreign "a" "z" 5 foreignRow
           eq_refl H5 eq_refl Hlen Hcl).
Defined.

Lemma MvccGet_visible_witness :
  0 <= 1 < uint64_max ∧
  (∀ c, c ∈ cells → 0 <= c_ts c) ∧
  ((∃ v, returns (MvccGet snap "a" {| kv.Ver := 1 |}) (Ok v) ∧ visible cells "a" 1 v) ∨
   (fails_with (MvccGet snap "a" {| kv.Ver := 1 |}) ErrNotExist ∧
    ∀ c, c ∈ cells → c_row c = "a"%string → 1 < c_ts c)).
Proof.
  assert (Hv : 0 <= 1 < uint64_max) by (unfold uint64_max; lia).
  assert (Hts : ∀ c, c ∈ cells → 0 <= c_ts c).
  { intros c Hin. unfold cells in Hin.
    repeat (apply elem_of_cons in Hin as [-> | Hin]; [simpl; lia|]).
    by apply elem_of_nil in Hin. }
  split; [exact Hv|]. split; [exact Hts|].
  exact (MvccGet_visible cells "t" "a" {| kv.Ver := 1 |} Hv Hts).
Defined.

End MoreSamples.
